(** * Interop service of neo-go: a shallow embedding

    The handlers of [pkg/core/interop_system.go] and of the sibling file
    holding the NEO-specific handlers (contract and asset life cycle) are
    embedded as functions of a small state-and-error monad over the interop
    context and the virtual machine's stacks.  Go [error] results become
    [Err], run-time panics (popping an empty stack, converting an item of the
    wrong kind) become [Panic]. *)

From Stdlib Require Import ZArith Lia String.
From Stdlib.Strings Require Byte.
From stdpp Require Import base option list gmap.

#[local] Open Scope Z_scope.

(** ** Bytes and hashes *)

Abbreviation bytes := (list Byte.byte) (only parsing).
(** [util.Uint160] and [util.Uint256]: byte strings of 20 and 32 bytes; the
    length is checked where the code decodes them. *)
Abbreviation Uint160 := (list Byte.byte) (only parsing).
Abbreviation Uint256 := (list Byte.byte) (only parsing).

#[global] Instance byte_eq_dec : EqDecision Byte.byte := Byte.byte_eq_dec.
#[global] Instance byte_countable : Countable Byte.byte :=
  inj_countable Byte.to_N Byte.of_N Byte.of_to_N.

(** ** Domain entities *)

Record Header := mkHeader {
  Version : Z;
  PrevHash : Uint256;
  MerkleRoot : Uint256;
  Timestamp : Z;
  Index : Z;
  NextConsensus : Uint160;
}.

Record Transaction := mkTransaction {
  txHash : Uint256;
  Attributes : list bytes;
  Scripts : list bytes;
}.

Record Block := mkBlock {
  blockHeader : Header;
  Transactions : list Transaction;
}.

(** [StorageContext] of interop_system.go. *)
Record StorageContext := mkStorageContext {
  ScriptHash : Uint160;
  ReadOnly : bool;
}.

(** [StorageItem]: a nil [Value] and an empty one are the same byte sequence
    for every reader in these files, so one list stands for both. *)
Record StorageItem := mkStorageItem {
  Value : bytes;
  IsConst : bool;
}.

(** [state.Contract] as built by [createContractStateFromVM]. *)
Record Contract := mkContract {
  Script : bytes;
  ParamList : list Byte.byte;
  ReturnType : Z;
  Properties : Z;
  Name : bytes;
  CodeVersion : bytes;
  Author : bytes;
  Email : bytes;
  Description : bytes;
}.

(** Modelled from the spec: [keys.PublicKey] (pkg/crypto/keys is not
    embedded here), an owner key being a curve point or the point at
    infinity, here [None]. *)
Definition PublicKey : Type := option (Z * Z).

(** Modelled from the spec: [PublicKey.IsInfinity]. *)
Definition IsInfinity (k : PublicKey) : bool :=
  match k with None => true | Some _ => false end.

(** [state.Asset] as built by [assetCreate]. *)
Record Asset := mkAsset {
  ID : Uint256;
  AssetType : Z;
  AssetName : bytes;
  Amount : Z;
  Precision : Z;
  Owner : PublicKey;
  Admin : Uint160;
  Issuer : Uint160;
  Expiration : Z;
}.

(** ** Stack items of the virtual machine *)

Inductive InteropValue :=
| VBlock (b : Block)
| VHeader (h : Header)
| VTransaction (t : Transaction)
| VContract (c : Contract)
| VStorageContext (c : StorageContext)
| VAsset (a : Asset).

Inductive StackItem :=
| ByteArrayItem (b : bytes)
| BigIntegerItem (z : Z)
| BoolItem (b : bool)
| InteropItem (v : InteropValue).

(** ** Errors and outcomes *)

Inductive error :=
| errorsNew (msg : string)                 (* errors.New, fmt.Errorf without verbs *)
| errorfT (x : StackItem) (msg : string)   (* fmt.Errorf("%T ...", x) *)
| errorfZ (msg : string) (z : Z)           (* fmt.Errorf("... %d", z), also with %x *)
| gherrWrap (e : error) (msg : string).    (* gherr.Wrap *)

Inductive outcome (A : Type) :=
| Ok (a : A)
| Err (e : error)
| Panic.

Arguments Ok {A} a.
Arguments Err {A} e.
Arguments Panic {A}.

Definition isErr {A} (o : outcome A) : Prop :=
  match o with Err _ => True | _ => False end.

(** ** The ledger *)

(** Modelled from the spec: the ledger behind [ic.bc] ([Blockchainer]) and
    behind [ic.DAO]/[ic.Chain] of the NEO handlers; its implementation
    (pkg/core blockchain and dao) is not embedded here.  The spec lists the
    reads ([get_block], [get_header], [get_transaction],
    [get_contract_state], [get_storage_item], [get_asset_state], ...) and the
    writes ([put_contract_state], [put_asset_state]) as operations of one
    ledger; each is a lookup or an update of a finite map, a miss being an
    error or a nil result as the Go signature has it. *)
Record Ledger := mkLedger {
  headerHashes : list Uint256;
  blocks : gmap Uint256 Block;
  headers : gmap Uint256 Header;
  transactions : gmap Uint256 (Transaction * Z);
  contracts : gmap Uint160 Contract;
  storageItems : gmap Uint160 (gmap bytes StorageItem);
  assets : gmap Uint256 Asset;
  blockHeight : Z;
}.

(** Modelled from the spec: the error of a lookup that misses. *)
Definition ErrKeyNotFound : error := errorsNew "key not found".

Definition zeroUint256 : Uint256 := replicate 32 Byte.x00.

(** Modelled from the spec: [get_header_hash(index)]; the zero hash beyond
    the known headers. *)
Definition GetHeaderHash (bc : Ledger) (i : Z) : Uint256 :=
  default zeroUint256 (headerHashes bc !! Z.to_nat i).

(** Modelled from the spec: [get_block(hash) -> Block | miss]. *)
Definition GetBlock (bc : Ledger) (h : Uint256) : error + Block :=
  match blocks bc !! h with Some b => inr b | None => inl ErrKeyNotFound end.

(** Modelled from the spec: [get_header(hash) -> Header | miss]. *)
Definition GetHeader (bc : Ledger) (h : Uint256) : error + Header :=
  match headers bc !! h with Some b => inr b | None => inl ErrKeyNotFound end.

(** Modelled from the spec: [get_transaction(hash) -> (Transaction, height) | miss]. *)
Definition GetTransaction (bc : Ledger) (h : Uint256) : error + (Transaction * Z) :=
  match transactions bc !! h with Some t => inr t | None => inl ErrKeyNotFound end.

(** Modelled from the spec: [get_contract_state(hash) -> ContractState | miss]. *)
Definition GetContractState (bc : Ledger) (h : Uint160) : option Contract :=
  contracts bc !! h.

(** Modelled from the spec: [put_contract_state]. *)
Definition PutContractState (bc : Ledger) (h : Uint160) (c : Contract) : Ledger :=
  mkLedger (headerHashes bc) (blocks bc) (headers bc) (transactions bc)
    (<[h := c]> (contracts bc)) (storageItems bc) (assets bc) (blockHeight bc).

(** Modelled from the spec: the items of one contract's key space, the
    mapping [get_storage_items_with_prefix] returns for the empty prefix. *)
Definition GetStorageItems (bc : Ledger) (h : Uint160) : gmap bytes StorageItem :=
  default ∅ (storageItems bc !! h).

(** Modelled from the spec: [get_storage_item(contract, key) -> StorageItem | miss]. *)
Definition GetStorageItem (bc : Ledger) (h : Uint160) (key : bytes) : option StorageItem :=
  GetStorageItems bc h !! key.

(** Modelled from the spec: the write that goes with [get_storage_item]. *)
Definition PutStorageItem (bc : Ledger) (h : Uint160) (key : bytes) (si : StorageItem) : Ledger :=
  mkLedger (headerHashes bc) (blocks bc) (headers bc) (transactions bc)
    (contracts bc) (<[h := <[key := si]> (GetStorageItems bc h)]> (storageItems bc))
    (assets bc) (blockHeight bc).

(** Modelled from the spec: the removal of a contract record, the ledger
    write behind [destroy] ("removes the contract record"). *)
Definition DeleteContractState (bc : Ledger) (h : Uint160) : Ledger :=
  mkLedger (headerHashes bc) (blocks bc) (headers bc) (transactions bc)
    (delete h (contracts bc)) (storageItems bc) (assets bc) (blockHeight bc).

(** Modelled from the spec: the removal of "every storage item under its
    namespace", the other ledger write behind [destroy]. *)
Definition DeleteStorageItems (bc : Ledger) (h : Uint160) : Ledger :=
  mkLedger (headerHashes bc) (blocks bc) (headers bc) (transactions bc)
    (contracts bc) (delete h (storageItems bc)) (assets bc) (blockHeight bc).

(** Modelled from the spec: [get_asset_state(id) -> AssetState | miss]. *)
Definition GetAssetState (bc : Ledger) (id : Uint256) : option Asset :=
  assets bc !! id.

(** Modelled from the spec: [put_asset_state]. *)
Definition PutAssetState (bc : Ledger) (a : Asset) : Ledger :=
  mkLedger (headerHashes bc) (blocks bc) (headers bc) (transactions bc)
    (contracts bc) (storageItems bc) (<[ID a := a]> (assets bc)) (blockHeight bc).

(** ** The staged overlay *)

(** Modelled from the spec: the store behind [ic.mem] and its helpers
    [getStorageItemFromStore], [putStorageItemIntoStore],
    [deleteStorageItemInStore], [getContractStateFromStore] and
    [deleteContractStateInStore] (pkg/core/storage is not embedded here).
    The spec has it as a mapping from (contract hash, key) to either a
    present item or a tombstone; a read finds an item only where a present
    one is staged, so a tombstone reads as nil like a miss. *)
Inductive staged (A : Type) :=
| Present (a : A)
| Tombstone.

Arguments Present {A} a.
Arguments Tombstone {A}.

Record Store := mkStore {
  memStorage : gmap (Uint160 * bytes) (staged StorageItem);
  memContracts : gmap Uint160 (staged Contract);
}.

Definition emptyStore : Store := mkStore ∅ ∅.

(** Modelled from the spec: [getStorageItemFromStore]; nil on a tombstone as
    on a miss. *)
Definition getStorageItemFromStore (s : Store) (h : Uint160) (key : bytes) : option StorageItem :=
  match memStorage s !! (h, key) with
  | Some (Present si) => Some si
  | _ => None
  end.

(** Modelled from the spec: [putStorageItemIntoStore] stages the item,
    overwriting any previous stage entry. *)
Definition putStorageItemIntoStore (s : Store) (h : Uint160) (key : bytes) (si : StorageItem) : Store :=
  mkStore (<[(h, key) := Present si]> (memStorage s)) (memContracts s).

(** Modelled from the spec: [deleteStorageItemInStore] stages a tombstone. *)
Definition deleteStorageItemInStore (s : Store) (h : Uint160) (key : bytes) : Store :=
  mkStore (<[(h, key) := Tombstone]> (memStorage s)) (memContracts s).

(** Modelled from the spec: [getContractStateFromStore]. *)
Definition getContractStateFromStore (s : Store) (h : Uint160) : option Contract :=
  match memContracts s !! h with
  | Some (Present c) => Some c
  | _ => None
  end.

(** Modelled from the spec: [deleteContractStateInStore]. *)
Definition deleteContractStateInStore (s : Store) (h : Uint160) : Store :=
  mkStore (memStorage s) (<[h := Tombstone]> (memContracts s)).

(** ** Interop context and virtual machine *)

(** [interopContext] of interop_system.go; the NEO handlers call the same
    fields [ic.Chain]/[ic.DAO] (here [bc]), [ic.Trigger] and [ic.Tx]. *)
Record interopContext := mkIC {
  bc : Ledger;
  mem : Store;
  trigger : Z;
  tx : option Transaction;
  block : option Block;
}.

(** The part of [vm.VM] the handlers touch: the evaluation stack (top first)
    and the scripts of the invocation stack (current context first). *)
Record VM := mkVM {
  estack : list StackItem;
  istack : list bytes;
}.

Record St := mkSt {
  st_ic : interopContext;
  st_vm : VM;
}.

(** ** The handler monad *)

Definition M (A : Type) : Type := St → outcome (A * St).

#[global] Instance M_ret : MRet M := λ A a s, Ok (a, s).
#[global] Instance M_bind : MBind M := λ A B f m s,
  match m s with
  | Ok (a, s') => f a s'
  | Err e => Err e
  | Panic => Panic
  end.

Definition fail {A} (e : error) : M A := λ _, Err e.
Definition panic {A} : M A := λ _, Panic.
Definition gets {A} (f : St → A) : M A := λ s, Ok (f s, s).
Definition modify (f : St → St) : M unit := λ s, Ok (tt, f s).

Definition liftE {A} (r : error + A) : M A :=
  match r with inl e => fail e | inr a => mret a end.

(** A conversion that panics where it is not defined. *)
Definition orPanic {A} (o : option A) : M A :=
  match o with Some a => mret a | None => panic end.

(** [v.Estack().Pop()]: the element is nil on an empty stack and every use
    of it dereferences it. *)
Definition Pop : M StackItem := λ s,
  match estack (st_vm s) with
  | [] => Panic
  | x :: rest => Ok (x, mkSt (st_ic s) (mkVM rest (istack (st_vm s))))
  end.

Definition PushVal (x : StackItem) : M unit :=
  modify (λ s, mkSt (st_ic s) (mkVM (x :: estack (st_vm s)) (istack (st_vm s)))).

(** Assignments to the fields [ic.mem] and, through the DAO, [ic.bc]. *)
Definition withMem (c : interopContext) (m : Store) : interopContext :=
  mkIC (bc c) m (trigger c) (tx c) (block c).

Definition withBC (c : interopContext) (l : Ledger) : interopContext :=
  mkIC l (mem c) (trigger c) (tx c) (block c).

Definition setMem (m : Store) : M unit :=
  modify (λ s, mkSt (withMem (st_ic s) m) (st_vm s)).

Definition setBC (l : Ledger) : M unit :=
  modify (λ s, mkSt (withBC (st_ic s) l) (st_vm s)).

(** A handler [func (ic *interopContext) h(v *vm.VM) error] run on a context
    and a machine. *)
Definition run (h : M unit) (c : interopContext) (v : VM) : outcome (interopContext * VM) :=
  match h (mkSt c v) with
  | Ok (_, s) => Ok (st_ic s, st_vm s)
  | Err e => Err e
  | Panic => Panic
  end.

(** ** Collaborators outside these files *)

(** The cryptographic primitives, the key and script encodings and the
    integer encodings of the virtual machine are taken as parameters: no
    result below depends on what they compute. *)
Class Externals := {
  (** [hash.Hash160] *)
  Hash160 : bytes → Uint160;
  (** [vm.IntToBytes] and its inverse, behind [Element.Bytes] and
      [Element.BigInt] *)
  IntToBytes : Z → bytes;
  BytesToInt : bytes → Z;
  (** [keys.NewPublicKeyFromBytes] and [PublicKey.DecodeBytes] *)
  NewPublicKeyFromBytes : bytes → error + PublicKey;
  (** [smartcontract.CreateSignatureRedeemScript] *)
  CreateSignatureRedeemScript : PublicKey → error + bytes;
  (** [Blockchainer.GetScriptHashesForVerifying] *)
  GetScriptHashesForVerifying : Ledger → option Transaction → error + list Uint160;
  (** [Contract.HasStorage]: whether the contract's properties declare
      storage support *)
  HasStorage : Contract → bool;
  (** the asset kinds [transaction.Currency], [Share], [Invoice], [Token] *)
  Currency : Z;
  Share : Z;
  Invoice : Z;
  Token : Z;
}.

(** Modelled from the spec: [Element.Bytes] (pkg/vm is not embedded here),
    over the spec's byte-buffer, integer, boolean and opaque-handle items; it
    panics on a handle. *)
Definition Bytes {ext : Externals} (x : StackItem) : option bytes :=
  match x with
  | ByteArrayItem b => Some b
  | BigIntegerItem z => Some (IntToBytes z)
  | BoolItem true => Some [Byte.x01]
  | BoolItem false => Some [Byte.x00]
  | InteropItem _ => None
  end.

(** Modelled from the spec: [Element.BigInt], likewise. *)
Definition BigInt {ext : Externals} (x : StackItem) : option Z :=
  match x with
  | ByteArrayItem b => Some (BytesToInt b)
  | BigIntegerItem z => Some z
  | BoolItem true => Some 1
  | BoolItem false => Some 0
  | InteropItem _ => None
  end.

(** [big.Int.Int64]: the low 64 bits, read as a signed integer. *)
Definition Int64 (z : Z) : Z := (z + 2 ^ 63) mod 2 ^ 64 - 2 ^ 63.

(** Conversion of an [int64] to [byte] and of sums to [uint32]. *)
Definition toByte (z : Z) : Z := z mod 256.
Definition toUint32 (z : Z) : Z := z mod 2 ^ 32.

Definition MaxUint32 : Z := 2 ^ 32 - 1.

(** Modelled from the spec: [util.Uint160DecodeBytes], decoding a 20-byte
    script hash (pkg/util is not embedded here); the length is
    the only thing checked. *)
Definition Uint160DecodeBytes (b : bytes) : error + Uint160 :=
  if decide (length b = 20%nat) then inr b
  else inl (errorsNew "expected byte size of 20").

(** Modelled from the spec: [util.Uint256DecodeReverseBytes], decoding a
    full reversed 32-byte hash. *)
Definition Uint256DecodeReverseBytes (b : bytes) : error + Uint256 :=
  if decide (length b = 32%nat) then inr (reverse b)
  else inl (errorsNew "expected []byte of size 32").

(** Trigger bytes: [0x10] is the application trigger, which interop_system.go
    spells as a literal ("... when not triggered by application") and the NEO
    handlers as [trigger.Application]; [0x11] is its read-only twin. *)
Definition Application : Z := 0x10.
Definition ApplicationR : Z := 0x11.

(** [MaxStorageKeyLen] *)
Definition MaxStorageKeyLen : Z := 1024.

Section InteropSystem.

Context {ext : Externals}.

(** ** interop_system.go *)

Definition PopBytes : M bytes := x ← Pop; orPanic (Bytes x).
Definition PopInt64 : M Z := x ← Pop; z ← orPanic (BigInt x); mret (Int64 z).

(** A popped integer converted to a [byte]-based type. *)
Definition PopByte : M Z := z ← PopInt64; mret (toByte z).

Definition getIC : M interopContext := gets st_ic.

(** [getBlockHashFromElement] *)
Definition getBlockHashFromElement (bc : Ledger) (element : StackItem) : M Uint256 :=
  hashbytes ← orPanic (Bytes element);
  if decide (Z.of_nat (length hashbytes) ≤ 5) then
    z ← orPanic (BigInt element);
    let hashint := Int64 z in
    if decide (hashint < 0 ∨ hashint > MaxUint32) then
      fail (errorsNew "bad block index")
    else mret (GetHeaderHash bc hashint)
  else liftE (Uint256DecodeReverseBytes hashbytes).

(** [bcGetBlock] *)
Definition bcGetBlock : M unit :=
  ic ← getIC;
  element ← Pop;
  hash ← getBlockHashFromElement (bc ic) element;
  match GetBlock (bc ic) hash with
  | inl _ => PushVal (ByteArrayItem [])
  | inr block => PushVal (InteropItem (VBlock block))
  end.

(** [bcGetContract] *)
Definition bcGetContract : M unit :=
  ic ← getIC;
  hashbytes ← PopBytes;
  hash ← liftE (Uint160DecodeBytes hashbytes);
  match GetContractState (bc ic) hash with
  | None => PushVal (ByteArrayItem [])
  | Some cs => PushVal (InteropItem (VContract cs))
  end.

(** [bcGetHeader] *)
Definition bcGetHeader : M unit :=
  ic ← getIC;
  element ← Pop;
  hash ← getBlockHashFromElement (bc ic) element;
  match GetHeader (bc ic) hash with
  | inl _ => PushVal (ByteArrayItem [])
  | inr header => PushVal (InteropItem (VHeader header))
  end.

(** [bcGetHeight] *)
Definition bcGetHeight : M unit :=
  ic ← getIC; PushVal (BigIntegerItem (blockHeight (bc ic))).

(** [getTransactionAndHeight] *)
Definition getTransactionAndHeight (bc : Ledger) : M (Transaction * Z) :=
  hashbytes ← PopBytes;
  hash ← liftE (Uint256DecodeReverseBytes hashbytes);
  liftE (GetTransaction bc hash).

(** [bcGetTransaction] *)
Definition bcGetTransaction : M unit :=
  ic ← getIC;
  r ← getTransactionAndHeight (bc ic);
  PushVal (InteropItem (VTransaction r.1)).

(** [bcGetTransactionHeight] *)
Definition bcGetTransactionHeight : M unit :=
  ic ← getIC;
  r ← getTransactionAndHeight (bc ic);
  PushVal (BigIntegerItem r.2).

(** [getContextScriptHash]: the script hash of the invocation stack element
    number [n]; peeking below the bottom yields nil, whose use panics. *)
Definition getContextScriptHash (n : nat) : M Uint160 :=
  v ← gets st_vm;
  match istack v !! n with
  | Some prog => mret (Hash160 prog)
  | None => panic
  end.

(** [checkHashedWitness] *)
Definition checkHashedWitness (ic : interopContext) (hash : Uint160) : error + bool :=
  match GetScriptHashesForVerifying (bc ic) (tx ic) with
  | inl err => inl (gherrWrap err "failed to get script hashes")
  | inr hashes => inr (bool_decide (hash ∈ hashes))
  end.

(** [checkKeyedWitness] *)
Definition checkKeyedWitness (ic : interopContext) (key : PublicKey) : error + bool :=
  match CreateSignatureRedeemScript key with
  | inl err => inl (gherrWrap err "failed to create signature script for a key")
  | inr script => checkHashedWitness ic (Hash160 script)
  end.

(** [checkStorageContext] *)
Definition checkStorageContext (ic : interopContext) (stc : StorageContext) : error + unit :=
  match GetContractState (bc ic) (ScriptHash stc) with
  | None => inl (errorsNew "no contract found")
  | Some contract =>
      if HasStorage contract then inr tt
      else inl (errorsNew "contract can't have storage")
  end.

(** The type assertion of a popped value to a pointer to [StorageContext]. *)
Definition asStorageContext (x : StackItem) : M StorageContext :=
  match x with
  | InteropItem (VStorageContext stc) => mret stc
  | _ => fail (errorfT x "is not a StorageContext")
  end.

(** The lookup shared by the storage handlers: the staged overlay first,
    committed storage when it yields nil. *)
Definition lookupStorageItem (ic : interopContext) (h : Uint160) (key : bytes) : option StorageItem :=
  match getStorageItemFromStore (mem ic) h key with
  | Some si => Some si
  | None => GetStorageItem (bc ic) h key
  end.

(** [storageDelete] *)
Definition storageDelete : M unit :=
  ic ← getIC;
  if decide (trigger ic ≠ 0x10 ∧ trigger ic ≠ 0x11) then
    fail (errorsNew "can't delete when the trigger is not application")
  else
    stcInterface ← Pop;
    stc ← asStorageContext stcInterface;
    if ReadOnly stc then fail (errorsNew "StorageContext is read only")
    else
      _ ← liftE (checkStorageContext ic stc);
      key ← PopBytes;
      let si := lookupStorageItem ic (ScriptHash stc) key in
      if from_option IsConst false si then fail (errorsNew "storage item is constant")
      else setMem (deleteStorageItemInStore (mem ic) (ScriptHash stc) key).

(** [storageGet] *)
Definition storageGet : M unit :=
  ic ← getIC;
  stcInterface ← Pop;
  stc ← asStorageContext stcInterface;
  _ ← liftE (checkStorageContext ic stc);
  key ← PopBytes;
  let si := lookupStorageItem ic (ScriptHash stc) key in
  match si with
  | Some si => PushVal (ByteArrayItem (Value si))
  | None => PushVal (ByteArrayItem [])
  end.

(** [storageGetContext] and [storageGetReadOnlyContext] *)
Definition storageGetContext : M unit :=
  h ← getContextScriptHash 0;
  PushVal (InteropItem (VStorageContext (mkStorageContext h false))).

Definition storageGetReadOnlyContext : M unit :=
  h ← getContextScriptHash 0;
  PushVal (InteropItem (VStorageContext (mkStorageContext h true))).

(** [putWithContextAndFlags] *)
Definition putWithContextAndFlags (stc : StorageContext) (key value : bytes) (isConst : bool) : M unit :=
  ic ← getIC;
  if decide (trigger ic ≠ 0x10 ∧ trigger ic ≠ 0x11) then
    fail (errorsNew "can't delete when the trigger is not application")
  else if decide (Z.of_nat (length key) > MaxStorageKeyLen) then
    fail (errorsNew "key is too big")
  else if ReadOnly stc then fail (errorsNew "StorageContext is read only")
  else
    _ ← liftE (checkStorageContext ic stc);
    let si := default (mkStorageItem [] false) (lookupStorageItem ic (ScriptHash stc) key) in
    if IsConst si then fail (errorsNew "storage item exists and is read-only")
    else
      setMem (putStorageItemIntoStore (mem ic) (ScriptHash stc) key
                (mkStorageItem value isConst)).

(** [storagePutInternal], [storagePut] and [storagePutEx] *)
Definition storagePutInternal (getFlag : bool) : M unit :=
  stcInterface ← Pop;
  stc ← asStorageContext stcInterface;
  key ← PopBytes;
  value ← PopBytes;
  flag ← (if getFlag then PopInt64 else mret 0);
  putWithContextAndFlags stc key value (bool_decide (flag = 1)).

Definition storagePut : M unit := storagePutInternal false.
Definition storagePutEx : M unit := storagePutInternal true.

(** [storageContextAsReadOnly] *)
Definition storageContextAsReadOnly : M unit :=
  stcInterface ← Pop;
  stc ← asStorageContext stcInterface;
  let stc := if negb (ReadOnly stc) then mkStorageContext (ScriptHash stc) true else stc in
  PushVal (InteropItem (VStorageContext stc)).

(** [contractDestroy]: the loop over the keys of [siMap] deletes each key
    once; the order in which a Go map is ranged over does not matter, the
    deletions being of distinct keys. *)
Definition contractDestroy : M unit :=
  ic ← getIC;
  if decide (trigger ic ≠ 0x10) then
    fail (errorsNew "can't destroy contract when not triggered by application")
  else
    hash ← getContextScriptHash 0;
    match GetContractState (bc ic) hash with
    | None => mret tt
    | Some cs =>
        let mem1 := deleteContractStateInStore (mem ic) hash in
        if HasStorage cs then
          let siMap := GetStorageItems (bc ic) hash in
          setMem (map_fold (λ k _ m, deleteStorageItemInStore m hash k) mem1 siMap)
        else setMem mem1
    end.

(** [contractGetStorageContext]: the message of the failed assertion formats
    its nil target, so it names the target's static type. *)
Definition contractGetStorageContext : M unit :=
  ic ← getIC;
  csInterface ← Pop;
  match csInterface with
  | InteropItem (VContract cs) =>
      match getContractStateFromStore (mem ic) (Hash160 (Script cs)) with
      | None => fail (errorsNew "contract was not created in this transaction")
      | Some _ => PushVal (InteropItem (VStorageContext (mkStorageContext (Hash160 (Script cs)) false)))
      end
  | _ => fail (errorsNew "*core.ContractState is not a contract state")
  end.

End InteropSystem.

(** ** The NEO handlers: contract and asset life cycle *)

Definition MaxContractDescriptionLen : Z := 65536.
Definition MaxContractScriptSize : Z := 1024 * 1024.
Definition MaxContractParametersNum : Z := 252.
Definition MaxContractStringLen : Z := 252.
Definition MaxAssetNameLen : Z := 1024.
Definition MaxAssetPrecision : Z := 8.
Definition BlocksPerYear : Z := 2000000.
Definition DefaultAssetLifetime : Z := 1 + BlocksPerYear.

(** Modelled from the spec: [util.Satoshi], the smallest unit of the 8-decimal
    fixed-point amount (pkg/util is not embedded here); its
    negation is the one legal negative amount, "the unbounded sentinel" of an
    amount that must be at least -1 unit. *)
Definition Satoshi : Z := 1.

(** [math.Pow10] on the exponents 0..8 the code reaches, where the floating
    point result is the exact power and its conversion to [int64] loses
    nothing. *)
Definition Pow10 (n : Z) : Z := 10 ^ n.

Section InteropNeo.

Context {ext : Externals}.

Definition len (b : bytes) : Z := Z.of_nat (length b).

(** [createContractStateFromVM] *)
Definition createContractStateFromVM : M Contract :=
  ic ← getIC;
  if decide (trigger ic ≠ Application) then
    fail (errorsNew "can't create contract when not triggered by an application")
  else
    script ← PopBytes;
    if decide (len script > MaxContractScriptSize) then fail (errorsNew "the script is too big") else
    paramBytes ← PopBytes;
    if decide (len paramBytes > MaxContractParametersNum) then
      fail (errorsNew "too many parameters for a script") else
    retType ← PopInt64;
    properties ← PopInt64;
    name ← PopBytes;
    if decide (len name > MaxContractStringLen) then fail (errorsNew "too big name") else
    version ← PopBytes;
    if decide (len version > MaxContractStringLen) then fail (errorsNew "too big version") else
    author ← PopBytes;
    if decide (len author > MaxContractStringLen) then fail (errorsNew "too big author") else
    email ← PopBytes;
    if decide (len email > MaxContractStringLen) then fail (errorsNew "too big email") else
    desc ← PopBytes;
    if decide (len desc > MaxContractDescriptionLen) then fail (errorsNew "too big description") else
    (* paramList holds one ParamType per byte of paramBytes; properties is a
       PropertyState, a byte *)
    mret (mkContract script paramBytes retType (toByte properties) name version author email desc).

(** [Contract.ScriptHash] *)
Definition ContractScriptHash (c : Contract) : Uint160 := Hash160 (Script c).

(** [contractCreate] *)
Definition contractCreate : M unit :=
  newcontract ← createContractStateFromVM;
  ic ← getIC;
  match GetContractState (bc ic) (ContractScriptHash newcontract) with
  | Some contract => PushVal (InteropItem (VContract contract))
  | None =>
      let contract := newcontract in
      _ ← setBC (PutContractState (bc ic) (ContractScriptHash contract) contract);
      PushVal (InteropItem (VContract contract))
  end.

(** The loop of [contractMigrate] over [siMap]: every item is stored under
    the new contract's hash with [IsConst] reset; the keys are distinct, so
    the order of the range does not matter. *)
Definition migrateStorage (l : Ledger) (to : Uint160) (siMap : gmap bytes StorageItem) : Ledger :=
  map_fold (λ k v l, PutStorageItem l to k (mkStorageItem (Value v) false)) l siMap.

(** Modelled from the spec: the function [contractDestroy(ic, v)] that
    [contractMigrate] calls with its [interop.Context], which is not among
    these files: the [contractDestroy] of interop_system.go is a method of
    the older [interopContext], takes the machine alone and stages its
    deletions in [ic.mem], a field the context of the NEO handlers does not
    have.  The spec has [destroy] require the Application trigger, be a
    no-op (not an error) if the contract does not exist, and otherwise
    remove the contract record and, if it declared storage support, every
    storage item under its namespace.  The contract is the executing one,
    the one whose items [contractMigrate] copies, and the removals are made
    in the ledger behind [ic.DAO], where [contractMigrate] makes its own
    writes. *)
Definition contractDestroyDAO : M unit :=
  ic ← getIC;
  if decide (trigger ic ≠ Application) then
    fail (errorsNew "can't destroy contract when not triggered by application")
  else
    hash ← getContextScriptHash 0;
    match GetContractState (bc ic) hash with
    | None => mret tt
    | Some cs =>
        let bc1 := DeleteContractState (bc ic) hash in
        setBC (if HasStorage cs then DeleteStorageItems bc1 hash else bc1)
    end.

(** [contractMigrate]; its last call is to the [contractDestroy] of its own
    context, above. *)
Definition contractMigrate : M unit :=
  newcontract ← createContractStateFromVM;
  ic ← getIC;
  contract ←
    match GetContractState (bc ic) (ContractScriptHash newcontract) with
    | Some contract => mret contract
    | None =>
        let contract := newcontract in
        let bc1 := PutContractState (bc ic) (ContractScriptHash contract) contract in
        _ ← setBC bc1;
        _ ← (if HasStorage contract then
               hash ← getContextScriptHash 0;
               let siMap := GetStorageItems bc1 hash in
               setBC (migrateStorage bc1 (ContractScriptHash contract) siMap)
             else mret tt);
        mret contract
    end;
  _ ← PushVal (InteropItem (VContract contract));
  contractDestroyDAO.

(** The type assertion of a popped value to a pointer to [state.Asset]; the
    message formats the nil target of the failed assertion, so it names the
    target's static type whatever was popped. *)
Definition asAsset (x : StackItem) : M Asset :=
  match x with
  | InteropItem (VAsset a) => mret a
  | _ => fail (errorsNew "*state.Asset is not an asset state")
  end.

(** [assetCreate] *)
Definition assetCreate : M unit :=
  ic ← getIC;
  if decide (trigger ic ≠ Application) then
    fail (errorsNew "can't create asset when not triggered by an application")
  else
    atype ← PopByte;
    if negb (bool_decide (atype = Currency ∨ atype = Share ∨ atype = Invoice ∨ atype = Token)) then
      fail (errorfZ "wrong asset type:" atype) else
    name ← PopBytes;
    if decide (len name > MaxAssetNameLen) then fail (errorsNew "too big name") else
    amount ← PopInt64;
    if decide (amount = 0) then fail (errorsNew "asset amount can't be zero") else
    if decide (amount < - Satoshi) then
      fail (errorsNew "asset amount can't be negative (except special -Satoshi value") else
    if decide (atype = Invoice ∧ amount ≠ - Satoshi) then
      fail (errorsNew "invoice assets can only have -Satoshi amount") else
    precision ← PopByte;
    if decide (precision > MaxAssetPrecision) then
      fail (errorfZ "can't have asset precision of more than" MaxAssetPrecision) else
    if decide (atype = Share ∧ precision ≠ 0) then
      fail (errorsNew "share assets can only have zero precision") else
    if decide (amount ≠ - Satoshi ∧ Z.rem amount (Pow10 (MaxAssetPrecision - precision)) ≠ 0) then
      fail (errorsNew "given asset amount has fractional component") else
    ownerBytes ← PopBytes;
    match NewPublicKeyFromBytes ownerBytes with
    | inl err => fail (gherrWrap err "failed to get owner key")
    | inr owner =>
        if IsInfinity owner then fail (errorsNew "can't have infinity as an owner key") else
        witnessOk ← liftE (checkKeyedWitness ic owner);
        if negb witnessOk then fail (errorsNew "witness check didn't succeed") else
        adminBytes ← PopBytes;
        match Uint160DecodeBytes adminBytes with
        | inl err => fail (gherrWrap err "failed to get admin")
        | inr admin =>
            issuerBytes ← PopBytes;
            match Uint160DecodeBytes issuerBytes with
            | inl err => fail (gherrWrap err "failed to get issuer")
            | inr issuer =>
                t ← orPanic (tx ic);
                let asset := mkAsset (txHash t) atype name amount precision owner admin issuer
                               (toUint32 (blockHeight (bc ic) + DefaultAssetLifetime)) in
                _ ← setBC (PutAssetState (bc ic) asset);
                PushVal (InteropItem (VAsset asset))
            end
        end
    end.

(** The assignment [asset.Expiration = e]. *)
Definition withExpiration (a : Asset) (e : Z) : Asset :=
  mkAsset (ID a) (AssetType a) (AssetName a) (Amount a) (Precision a) (Owner a)
    (Admin a) (Issuer a) e.

(** [assetRenew] *)
Definition assetRenew : M unit :=
  ic ← getIC;
  if decide (trigger ic ≠ Application) then
    fail (errorsNew "can't create asset when not triggered by an application")
  else
    asInterface ← Pop;
    as_ ← asAsset asInterface;
    years ← PopByte;
    match GetAssetState (bc ic) (ID as_) with
    | None => fail (errorsNew "can't renew non-existent asset")
    | Some asset =>
        let exp0 :=
          if decide (Expiration asset < toUint32 (blockHeight (bc ic) + 1))
          then toUint32 (blockHeight (bc ic) + 1) else Expiration asset in
        let expiration := exp0 + years * BlocksPerYear in
        let expiration := if decide (expiration > MaxUint32) then MaxUint32 else expiration in
        let asset := withExpiration asset (toUint32 expiration) in
        _ ← setBC (PutAssetState (bc ic) asset);
        PushVal (BigIntegerItem expiration)
    end.

End InteropNeo.

(** ** Further handlers: headers, blocks, transactions, witnesses *)

(** Modelled from the spec: [util.Uint256DecodeBytesBE], decoding a 32-byte
    identifier given in its own byte order (pkg/util is not embedded here);
    the length is the only thing checked. *)
Definition Uint256DecodeBytesBE (b : bytes) : error + Uint256 :=
  if decide (length b = 32%nat) then inr b
  else inl (errorsNew "expected []byte of size 32").

Section InteropAccessors.

Context {ext : Externals}.

(** [Header.Hash]: the hash of a header, computed outside these files. *)
Variable HeaderHash : Header → Uint256.

(** [popHeaderFromVM] *)
Definition popHeaderFromVM : M Header :=
  iface ← Pop;
  match iface with
  | InteropItem (VHeader header) => mret header
  | InteropItem (VBlock block) => mret (blockHeader block)
  | _ => fail (errorsNew "value is not a header or block")
  end.

(** [headerGetIndex] *)
Definition headerGetIndex : M unit :=
  header ← popHeaderFromVM; PushVal (BigIntegerItem (Index header)).

(** [headerGetHash] *)
Definition headerGetHash : M unit :=
  header ← popHeaderFromVM; PushVal (ByteArrayItem (reverse (HeaderHash header))).

(** [headerGetPrevHash] *)
Definition headerGetPrevHash : M unit :=
  header ← popHeaderFromVM; PushVal (ByteArrayItem (reverse (PrevHash header))).

(** [headerGetTimestamp] *)
Definition headerGetTimestamp : M unit :=
  header ← popHeaderFromVM; PushVal (BigIntegerItem (Timestamp header)).

(** [headerGetVersion], [headerGetMerkleRoot] and [headerGetNextConsensus] of
    the NEO handlers. *)
Definition headerGetVersion : M unit :=
  header ← popHeaderFromVM; PushVal (BigIntegerItem (Version header)).

Definition headerGetMerkleRoot : M unit :=
  header ← popHeaderFromVM; PushVal (ByteArrayItem (MerkleRoot header)).

Definition headerGetNextConsensus : M unit :=
  header ← popHeaderFromVM; PushVal (ByteArrayItem (NextConsensus header)).

(** The type assertion of a popped value to a pointer to [Block]. *)
Definition asBlock (x : StackItem) : M Block :=
  match x with
  | InteropItem (VBlock block) => mret block
  | _ => fail (errorsNew "value is not a block")
  end.

(** [blockGetTransactionCount] *)
Definition blockGetTransactionCount : M unit :=
  blockInterface ← Pop;
  block ← asBlock blockInterface;
  PushVal (BigIntegerItem (Z.of_nat (length (Transactions block)))).

(** [blockGetTransaction]: indexing the slice panics out of range, which the
    check before it excludes. *)
Definition blockGetTransaction : M unit :=
  blockInterface ← Pop;
  block ← asBlock blockInterface;
  index ← PopInt64;
  if decide (index < 0 ∨ index >= Z.of_nat (length (Transactions block))) then
    fail (errorsNew "wrong transaction index")
  else
    tx ← orPanic (Transactions block !! Z.to_nat index);
    PushVal (InteropItem (VTransaction tx)).

(** [txGetHash] *)
Definition txGetHash : M unit :=
  txInterface ← Pop;
  match txInterface with
  | InteropItem (VTransaction tx) => PushVal (ByteArrayItem (reverse (txHash tx)))
  | _ => fail (errorsNew "value is not a transaction")
  end.

(** [runtimeCheckWitness]: [key.DecodeBytes] is the decoding behind
    [NewPublicKeyFromBytes]. *)
Definition runtimeCheckWitness : M unit :=
  ic ← getIC;
  hashOrKey ← PopBytes;
  res ←
    match Uint160DecodeBytes hashOrKey with
    | inl _ =>
        match NewPublicKeyFromBytes hashOrKey with
        | inl _ => fail (errorsNew "parameter given is neither a key nor a hash")
        | inr key =>
            match checkKeyedWitness ic key with
            | inl err => fail (gherrWrap err "failed to check")
            | inr res => mret res
            end
        end
    | inr hash =>
        match checkHashedWitness ic hash with
        | inl err => fail (gherrWrap err "failed to check")
        | inr res => mret res
        end
    end;
  PushVal (BoolItem res).

(** [bcGetAsset] of the NEO handlers. *)
Definition bcGetAsset : M unit :=
  ic ← getIC;
  asbytes ← PopBytes;
  ashash ← liftE (Uint256DecodeBytesBE asbytes);
  match GetAssetState (bc ic) ashash with
  | None => fail (errorsNew "asset not found")
  | Some as_ => PushVal (InteropItem (VAsset as_))
  end.

(** [contractGetScript]: the message names the static type of the failed
    assertion's target. *)
Definition contractGetScript : M unit :=
  csInterface ← Pop;
  match csInterface with
  | InteropItem (VContract cs) => PushVal (ByteArrayItem (Script cs))
  | _ => fail (errorsNew "*state.Contract is not a contract state")
  end.

(** [assetGetAdmin], [assetGetAmount], [assetGetAssetID], [assetGetAssetType],
    [assetGetIssuer] and [assetGetPrecision] *)
Definition assetGetAdmin : M unit :=
  asInterface ← Pop; as_ ← asAsset asInterface; PushVal (ByteArrayItem (Admin as_)).

Definition assetGetAmount : M unit :=
  asInterface ← Pop; as_ ← asAsset asInterface; PushVal (BigIntegerItem (Amount as_)).

Definition assetGetAssetID : M unit :=
  asInterface ← Pop; as_ ← asAsset asInterface; PushVal (ByteArrayItem (ID as_)).

Definition assetGetAssetType : M unit :=
  asInterface ← Pop; as_ ← asAsset asInterface; PushVal (BigIntegerItem (AssetType as_)).

Definition assetGetIssuer : M unit :=
  asInterface ← Pop; as_ ← asAsset asInterface; PushVal (ByteArrayItem (Issuer as_)).

Definition assetGetPrecision : M unit :=
  asInterface ← Pop; as_ ← asAsset asInterface; PushVal (BigIntegerItem (Precision as_)).

End InteropAccessors.

(** One handler after another, the second on the state the first leaves. *)
Definition andThen (h1 h2 : M unit) : M unit := _ ← h1; h2.

(** ** A concrete instance of the collaborators

    Used to run the handlers on concrete inputs. *)
Definition sampleExternals : Externals := {|
  Hash160 := λ b, take 20 (b ++ replicate 20 Byte.x00);
  IntToBytes := λ z, if decide (z = 0) then [] else [Byte.x01];
  BytesToInt := λ b, Z.of_nat (length b);
  NewPublicKeyFromBytes := λ b,
    match b with
    | [] => inl (errorsNew "invalid key")
    | [_] => inr None
    | _ => inr (Some (1, 2))
    end;
  CreateSignatureRedeemScript := λ _, inr [Byte.x21; Byte.xac];
  GetScriptHashesForVerifying := λ _ t,
    match t with
    | None => inl (errorsNew "no transaction")
    | Some _ => inr [take 20 ([Byte.x21; Byte.xac] ++ replicate 20 Byte.x00)]
    end;
  HasStorage := λ c, Z.testbit (Properties c) 0;
  Currency := 0x08;
  Share := 0x90;
  Invoice := 0x98;
  Token := 0x60;
|}.

Definition emptyLedger : Ledger := mkLedger [] ∅ ∅ ∅ ∅ ∅ ∅ 0.

(** ** The spec's error kinds, as the messages the handlers return *)

Definition ReadOnlyContext (e : error) : Prop :=
  e = errorsNew "StorageContext is read only".

Definition ConstViolation (e : error) : Prop :=
  e = errorsNew "storage item exists and is read-only" ∨
  e = errorsNew "storage item is constant".

(** The two triggers under which the storage handlers write. *)
Definition writeEligible (t : Z) : Prop := t = 0x10 ∨ t = 0x11.

(** The stack a storage handler expects: the context, then the key. *)
Definition storageArgs (stc : StorageContext) (key : StackItem) (rest : list StackItem) : list StackItem :=
  InteropItem (VStorageContext stc) :: key :: rest.

(** ** Sample states *)

Definition sampleScript : bytes := [Byte.x51; Byte.x66].
Definition sampleHash : Uint160 := @Hash160 sampleExternals sampleScript.
Definition sampleKey : bytes := [Byte.x6b].

(** A contract that declares storage. *)
Definition sampleContract : Contract :=
  mkContract sampleScript [] 0 1 [] [] [] [] [].

(** A ledger with that contract and one committed, non-constant item. *)
Definition sampleLedger : Ledger :=
  mkLedger [] ∅ ∅ ∅ {[ sampleHash := sampleContract ]}
    {[ sampleHash := {[ sampleKey := mkStorageItem [Byte.x01] false ]} ]} ∅ 7.

(** The same ledger with the item constant. *)
Definition constLedger : Ledger :=
  mkLedger [] ∅ ∅ ∅ {[ sampleHash := sampleContract ]}
    {[ sampleHash := {[ sampleKey := mkStorageItem [Byte.x01] true ]} ]} ∅ 7.

Definition sampleIC (l : Ledger) : interopContext :=
  mkIC l emptyStore Application None None.

Definition writableCtx : StorageContext := mkStorageContext sampleHash false.
Definition readOnlyCtx : StorageContext := mkStorageContext sampleHash true.

(** The context after staging a put of [0x02], and after staging a delete,
    of the sample key. *)
Definition putIC : interopContext :=
  mkIC sampleLedger
    (putStorageItemIntoStore emptyStore sampleHash sampleKey (mkStorageItem [Byte.x02] false))
    Application None None.

Definition deletedIC : interopContext :=
  mkIC sampleLedger (deleteStorageItemInStore emptyStore sampleHash sampleKey)
    Application None None.

Definition sampleStorageVM : VM :=
  mkVM (storageArgs writableCtx (ByteArrayItem sampleKey) []) [].

(** The renewal rule in the spec's words: raise the expiration to the
    successor of the current height if it is below it, add the years in
    blocks, clamp to the largest 32-bit value. *)
Definition renewSpec (nextHeight expiration years : Z) : Z :=
  Z.min (Z.max expiration nextHeight + years * 2000000) (2 ^ 32 - 1).

(** An asset expiring at height 100 on a ledger of height 7. *)
Definition sampleAsset : Asset :=
  mkAsset (replicate 32 Byte.x0a) 0x60 [] 100000000 8 (Some (1, 2))
    (replicate 20 Byte.x00) (replicate 20 Byte.x00) 100.

Definition assetLedger : Ledger :=
  mkLedger [] ∅ ∅ ∅ ∅ ∅ {[ ID sampleAsset := sampleAsset ]} 7.

Definition renewVM (years : Z) : VM :=
  mkVM [InteropItem (VAsset sampleAsset); BigIntegerItem years] [].

(** The arguments of [assetCreate], in the order it pops them. *)
Definition assetArgs (atype : Z) (name : bytes) (amount precision : Z) (rest : list StackItem) : list StackItem :=
  BigIntegerItem atype :: ByteArrayItem name :: BigIntegerItem amount ::
  BigIntegerItem precision :: rest.


Definition sampleTx : Transaction := mkTransaction (replicate 32 Byte.x0b) [] [].

Definition createIC : interopContext :=
  mkIC emptyLedger emptyStore Application (Some sampleTx) None.

Definition ownerAdminIssuer : list StackItem :=
  [ByteArrayItem [Byte.x02; Byte.x03]; ByteArrayItem (replicate 20 Byte.x00);
   ByteArrayItem (replicate 20 Byte.x01)].

(** The asset the sample creation stores. *)
Definition createdAsset : Asset :=
  mkAsset (replicate 32 Byte.x0b) 0x60 [] 200000 3 (Some (1, 2))
    (replicate 20 Byte.x00) (replicate 20 Byte.x01) 2000001.

(** A computation that, where it succeeds, has only popped the evaluation
    stack: the interop context and the invocation stack are as before. *)
Definition popsOnly {A} (m : M A) : Prop :=
  ∀ s a s', m s = Ok (a, s') →
    st_ic s' = st_ic s ∧ istack (st_vm s') = istack (st_vm s).

(** The machine after [PushVal] of a contract handle. *)
Definition pushContract (c : Contract) (v : VM) : VM :=
  mkVM (InteropItem (VContract c) :: estack v) (istack v).

(** The arguments of [createContractStateFromVM], in the order it pops
    them. *)
Definition contractArgs (c : Contract) (rest : list StackItem) : list StackItem :=
  ByteArrayItem (Script c) :: ByteArrayItem (ParamList c) :: BigIntegerItem (ReturnType c) ::
  BigIntegerItem (Properties c) :: ByteArrayItem (Name c) :: ByteArrayItem (CodeVersion c) ::
  ByteArrayItem (Author c) :: ByteArrayItem (Email c) :: ByteArrayItem (Description c) :: rest.

(** A second contract, with storage, to migrate the sample contract to, and
    the same script under other metadata. *)
Definition newScript : bytes := [Byte.x52; Byte.x66].
Definition newContract : Contract := mkContract newScript [] 0 1 [Byte.x6e] [] [] [] [].
Definition newContract' : Contract := mkContract newScript [] 0 0 [Byte.x6d] [] [] [] [].
Definition newHash : Uint160 := @Hash160 sampleExternals newScript.

Definition migrateVM : VM := mkVM (contractArgs newContract []) [sampleScript].

(** The ledger after the sample contract has migrated to the new one. *)
Definition migratedLedger : Ledger :=
  mkLedger [] ∅ ∅ ∅ {[ newHash := newContract ]}
    {[ newHash := {[ sampleKey := mkStorageItem [Byte.x01] false ]} ]} ∅ 7.

(** A sample header hash, and a chain of one block holding one transaction. *)
Definition sampleHeaderHash (h : Header) : Uint256 := replicate 32 Byte.x0c.

Definition sampleHeader : Header :=
  mkHeader 0 (replicate 32 Byte.x00) (replicate 32 Byte.x00) 1468595301 0
    (replicate 20 Byte.x00).

Definition sampleBlock : Block := mkBlock sampleHeader [sampleTx].

Definition chainLedger : Ledger :=
  mkLedger [replicate 32 Byte.x0c] {[ replicate 32 Byte.x0c := sampleBlock ]}
    {[ replicate 32 Byte.x0c := sampleHeader ]}
    {[ replicate 32 Byte.x0b := (sampleTx, 0) ]} ∅ ∅ ∅ 0.

(** The outcome of a handler with the context of its result replaced. *)
Definition onContext (ic' : interopContext) (o : outcome (interopContext * VM)) :
    outcome (interopContext * VM) :=
  match o with Ok (_, v) => Ok (ic', v) | Err e => Err e | Panic => Panic end.

(** The asset [assetCreate] builds from its popped arguments. *)
Definition newAsset (ic : interopContext) (t : Transaction)
    (atype : Z) (name : bytes) (amount precision : Z) (owner : PublicKey)
    (admin issuer : Uint160) : Asset :=
  mkAsset (txHash t) (toByte (Int64 atype)) name (Int64 amount) (toByte (Int64 precision))
    owner admin issuer (toUint32 (blockHeight (bc ic) + DefaultAssetLifetime)).

(** The whole stack of [assetCreate]. *)
Definition assetStack (atype : Z) (name : bytes) (amount precision : Z)
    (owner admin issuer : bytes) (rest : list StackItem) : list StackItem :=
  assetArgs atype name amount precision
    (ByteArrayItem owner :: ByteArrayItem admin :: ByteArrayItem issuer :: rest).

(** Sample states for the further properties. *)
Definition chainIC : interopContext := sampleIC chainLedger.

Definition chainState : St := mkSt chainIC (mkVM [] []).

Definition sealedIC : interopContext :=
  mkIC sampleLedger
    (putStorageItemIntoStore emptyStore sampleHash sampleKey (mkStorageItem [Byte.x02] true))
    Application None None.

Definition otherKey : bytes := [Byte.x6c].

Definition createdIC : interopContext :=
  withBC createIC (PutAssetState emptyLedger createdAsset).

Definition createVM : VM := mkVM (assetArgs 0x60 [] 200000 3 ownerAdminIssuer) [].



Definition createdContractIC : interopContext :=
  withBC (sampleIC sampleLedger) (PutContractState sampleLedger newHash newContract).

(** The overlay after [contractDestroy] has run on the sample contract, the
    context it leaves when the constant [0x02] was staged under the sample
    key, and the context after a later put of [0x03] under that key. *)
Definition destroyedStore : Store :=
  mkStore {[ (sampleHash, sampleKey) := Tombstone ]} {[ sampleHash := Tombstone ]}.

Definition destroyedIC : interopContext := withMem (sampleIC sampleLedger) destroyedStore.

Definition reputIC : interopContext :=
  withMem (sampleIC sampleLedger)
    (putStorageItemIntoStore destroyedStore sampleHash sampleKey (mkStorageItem [Byte.x03] false)).

(** A key one byte over the limit, and the sample context under the
    verification trigger. *)
Definition longKey : bytes := replicate 1025 Byte.x00.

Definition verificationIC : interopContext := mkIC sampleLedger emptyStore 0x00 None None.

(** The storage handlers of interop_system.go. *)
Inductive storageOp :=
| opGet | opPut | opPutEx | opDelete | opGetContext | opGetReadOnlyContext | opAsReadOnly.

Definition storageHandler {ext : Externals} (o : storageOp) : M unit :=
  match o with
  | opGet => storageGet
  | opPut => storagePut
  | opPutEx => storagePutEx
  | opDelete => storageDelete
  | opGetContext => storageGetContext
  | opGetReadOnlyContext => storageGetReadOnlyContext
  | opAsReadOnly => storageContextAsReadOnly
  end.

(** Storage handlers run one after another in one execution, each on the
    stacks the machine has when it is called; the execution is over, with no
    context left, as soon as one of them fails. *)
Fixpoint runStorageOps {ext : Externals} (ops : list (storageOp * VM)) (ic : interopContext) :
    option interopContext :=
  match ops with
  | [] => Some ic
  | (o, v) :: ops' =>
      match run (storageHandler o) ic v with
      | Ok (ic', _) => runStorageOps ops' ic'
      | _ => None
      end
  end.

(** A put and a delete of the other key, and the context they leave after
    the constant put of the sample key. *)
Definition laterOps : list (storageOp * VM) :=
  [(opPut, mkVM (storageArgs writableCtx (ByteArrayItem otherKey) [ByteArrayItem [Byte.x03]]) []);
   (opDelete, mkVM (storageArgs writableCtx (ByteArrayItem otherKey) []) [])].

Definition laterIC : interopContext :=
  withMem (sampleIC sampleLedger)
    (deleteStorageItemInStore
       (putStorageItemIntoStore (mem sealedIC) sampleHash otherKey (mkStorageItem [Byte.x03] false))
       sampleHash otherKey).

(** * Properties *)

(** Unfolds the monad's operations, so that a handler applied to a state
    reduces with [simpl]. *)
Ltac unfold_M :=
  unfold run, PopByte, PopBytes, PopInt64, getIC, liftE, orPanic, PushVal, setMem, setBC,
    Pop, gets, modify, fail, panic, mbind, M_bind, mret, M_ret in *.

Section LedgerQueries.

Context {ext : Externals}.

(** A block miss is soft: whenever the popped element resolves to a hash the
    ledger has no block for, [bcGetBlock] pushes an empty byte array. *)
Lemma bcGetBlock_miss ic element rest ctxs hash :
  getBlockHashFromElement (bc ic) element (mkSt ic (mkVM rest ctxs))
    = Ok (hash, mkSt ic (mkVM rest ctxs)) →
  blocks (bc ic) !! hash = None →
  run bcGetBlock ic (mkVM (element :: rest) ctxs)
    = Ok (ic, mkVM (ByteArrayItem [] :: rest) ctxs).
Proof.
  intros Hh Hmiss. unfold bcGetBlock, GetBlock. unfold_M. simpl.
  rewrite Hh, Hmiss. reflexivity.
Qed.

(** Likewise for a header miss. *)
Lemma bcGetHeader_miss ic element rest ctxs hash :
  getBlockHashFromElement (bc ic) element (mkSt ic (mkVM rest ctxs))
    = Ok (hash, mkSt ic (mkVM rest ctxs)) →
  headers (bc ic) !! hash = None →
  run bcGetHeader ic (mkVM (element :: rest) ctxs)
    = Ok (ic, mkVM (ByteArrayItem [] :: rest) ctxs).
Proof.
  intros Hh Hmiss. unfold bcGetHeader, GetHeader. unfold_M. simpl.
  rewrite Hh, Hmiss. reflexivity.
Qed.

(** The two ways an element names a block: a full reversed hash ... *)
Lemma getBlockHashFromElement_hash l hb s :
  length hb = 32%nat →
  getBlockHashFromElement l (ByteArrayItem hb) s = Ok (reverse hb, s).
Proof.
  intros Hlen. unfold getBlockHashFromElement, Uint256DecodeReverseBytes. unfold_M. simpl.
  rewrite Hlen. simpl. reflexivity.
Qed.

(** ... or a block index of at most five encoded bytes. *)
Lemma getBlockHashFromElement_index l i s :
  (length (IntToBytes i) ≤ 5)%nat → 0 ≤ i ≤ MaxUint32 →
  getBlockHashFromElement l (BigIntegerItem i) s = Ok (GetHeaderHash l i, s).
Proof.
  intros Hlen Hi. unfold getBlockHashFromElement. unfold_M. simpl.
  assert (Hint : Int64 i = i).
  { unfold Int64. unfold MaxUint32 in Hi. rewrite Z.mod_small; lia. }
  rewrite Hint.
  destruct (decide (Z.of_nat (length (IntToBytes i)) ≤ 5)); [|lia].
  destruct (decide (i < 0 ∨ i > MaxUint32)); [lia|]. reflexivity.
Qed.

(** A contract miss is soft as well. *)
Lemma bcGetContract_miss ic hb rest ctxs :
  length hb = 20%nat →
  contracts (bc ic) !! hb = None →
  run bcGetContract ic (mkVM (ByteArrayItem hb :: rest) ctxs)
    = Ok (ic, mkVM (ByteArrayItem [] :: rest) ctxs).
Proof.
  intros Hlen Hmiss. unfold bcGetContract, GetContractState, Uint160DecodeBytes. unfold_M.
  simpl. rewrite Hlen. simpl. rewrite Hmiss. reflexivity.
Qed.

(** C1 (ledger lookups encode absence as an empty result): the transaction
    handler does not.  For a well-formed 32-byte hash on the stack that no
    transaction of the ledger has, [bcGetTransaction] returns the ledger's
    error instead of pushing an empty value, where [bcGetBlock],
    [bcGetHeader] and [bcGetContract] push an empty byte array. *)
Theorem bcGetTransaction_miss_faults ic hb rest ctxs :
  length hb = 32%nat →
  transactions (bc ic) !! reverse hb = None →
  run bcGetTransaction ic (mkVM (ByteArrayItem hb :: rest) ctxs) = Err ErrKeyNotFound.
Proof.
  intros Hlen Hmiss.
  unfold bcGetTransaction, getTransactionAndHeight, GetTransaction, Uint256DecodeReverseBytes.
  unfold_M. simpl. rewrite Hlen. simpl. rewrite Hmiss. reflexivity.
Qed.

End LedgerQueries.

(** On an empty ledger, a lookup of the zero hash faults. *)
Lemma bcGetTransaction_miss_faults_witness :
  run (bcGetTransaction (ext := sampleExternals))
    (mkIC emptyLedger emptyStore Application None None)
    (mkVM [ByteArrayItem (replicate 32 Byte.x00)] []) = Err ErrKeyNotFound.
Proof.
  apply (bcGetTransaction_miss_faults (ext := sampleExternals)); reflexivity.
Defined.

Section Storage.

Context {ext : Externals}.

Lemma writeEligible_guard t (P Q : M unit) s :
  writeEligible t →
  (if decide (t ≠ 0x10 ∧ t ≠ 0x11) then P else Q) s = Q s.
Proof. intros [-> | ->]; destruct (decide _) as [[? ?]|?]; congruence. Qed.

(** What a successful [putWithContextAndFlags] has checked and done. *)
Lemma putWithContextAndFlags_Ok stc key value isConst ic v s' :
  putWithContextAndFlags stc key value isConst (mkSt ic v) = Ok (tt, s') →
  writeEligible (trigger ic) ∧ len key ≤ MaxStorageKeyLen ∧ ReadOnly stc = false ∧
  checkStorageContext ic stc = inr tt ∧
  s' = mkSt (withMem ic
               (putStorageItemIntoStore (mem ic) (ScriptHash stc) key (mkStorageItem value isConst))) v.
Proof.
  unfold putWithContextAndFlags. unfold_M. simpl.
  destruct (decide (trigger ic ≠ 16 ∧ trigger ic ≠ 17)) as [?|Ht]; [discriminate|].
  destruct (decide (Z.of_nat (length key) > MaxStorageKeyLen)); [discriminate|].
  destruct (ReadOnly stc) eqn:Hro; [discriminate|].
  destruct (checkStorageContext ic stc) as [?|[]] eqn:Hc; [discriminate|].
  destruct (IsConst _); [discriminate|].
  intros [= <-].
  assert (writeEligible (trigger ic)).
  { unfold writeEligible. destruct (decide (trigger ic = 16)); [tauto|].
    destruct (decide (trigger ic = 17)); tauto. }
  unfold len. repeat split; try done; lia.
Qed.

(** [putWithContextAndFlags] succeeds once its guards pass. *)
Lemma putWithContextAndFlags_succeeds stc key value isConst ic v :
  writeEligible (trigger ic) → len key ≤ MaxStorageKeyLen → ReadOnly stc = false →
  checkStorageContext ic stc = inr tt →
  from_option IsConst false (lookupStorageItem ic (ScriptHash stc) key) = false →
  putWithContextAndFlags stc key value isConst (mkSt ic v)
  = Ok (tt, mkSt (withMem ic
               (putStorageItemIntoStore (mem ic) (ScriptHash stc) key (mkStorageItem value isConst))) v).
Proof.
  intros Ht Hlen Hro Hc Hk. unfold putWithContextAndFlags. unfold_M. simpl.
  rewrite writeEligible_guard by done.
  destruct (decide (Z.of_nat (length key) > MaxStorageKeyLen)); [unfold len in Hlen; lia|].
  rewrite Hro, Hc. simpl.
  destruct (lookupStorageItem ic (ScriptHash stc) key); simpl in *; [rewrite Hk|]; reflexivity.
Qed.

(** [storageGet] on a valid context: the item the two-tier lookup finds, or
    an empty byte array. *)
Lemma storageGet_valid ic stc kitem key rest ctxs :
  checkStorageContext ic stc = inr tt → Bytes kitem = Some key →
  run storageGet ic (mkVM (storageArgs stc kitem rest) ctxs)
  = Ok (ic, mkVM (ByteArrayItem (from_option Value [] (lookupStorageItem ic (ScriptHash stc) key)) :: rest) ctxs).
Proof.
  intros Hc Hk. unfold storageGet, storageArgs. unfold_M. simpl.
  rewrite Hc. simpl. rewrite Hk. simpl.
  destruct (lookupStorageItem ic (ScriptHash stc) key); destruct ic; reflexivity.
Qed.

(** [storagePut] pops the context, the key and the value and puts them with
    the constant flag off. *)
Lemma storagePut_run ic stc kitem key vitem value rest ctxs :
  Bytes kitem = Some key → Bytes vitem = Some value →
  storagePut (mkSt ic (mkVM (storageArgs stc kitem (vitem :: rest)) ctxs))
  = putWithContextAndFlags stc key value false (mkSt ic (mkVM rest ctxs)).
Proof.
  intros Hk Hv. unfold storagePut, storagePutInternal, storageArgs.
  unfold PopBytes, Pop, orPanic, mbind, M_bind, mret, M_ret. simpl.
  rewrite Hk. simpl. rewrite Hv. reflexivity.
Qed.

(** What a successful [storageDelete] has checked and done. *)
Lemma storageDelete_Ok ic stc kitem key rest ctxs ic' v' :
  Bytes kitem = Some key →
  run storageDelete ic (mkVM (storageArgs stc kitem rest) ctxs) = Ok (ic', v') →
  writeEligible (trigger ic) ∧ ReadOnly stc = false ∧ checkStorageContext ic stc = inr tt ∧
  ic' = withMem ic (deleteStorageItemInStore (mem ic) (ScriptHash stc) key) ∧
  v' = mkVM rest ctxs.
Proof.
  intros Hk. unfold storageDelete, storageArgs. unfold_M. simpl.
  destruct (decide (trigger ic ≠ 16 ∧ trigger ic ≠ 17)) as [?|Ht]; [discriminate|].
  simpl. destruct (ReadOnly stc) eqn:Hro; [discriminate|].
  destruct (checkStorageContext ic stc) as [?|[]] eqn:Hc; [discriminate|]. simpl.
  rewrite Hk. simpl.
  destruct (from_option IsConst false _); [discriminate|]. simpl.
  intros [= <- <-].
  assert (writeEligible (trigger ic)).
  { unfold writeEligible. destruct (decide (trigger ic = 16)); [tauto|].
    destruct (decide (trigger ic = 17)); tauto. }
  repeat split; done.
Qed.

(** C2 (put then get): when [putWithContextAndFlags] with [isConst = false]
    succeeds, the key was at most 1024 bytes and the trigger write-eligible,
    the ledger is untouched (nothing is committed), and a [storageGet] of the
    same context and key that follows pushes exactly the value put. *)
Theorem put_then_get ic v stc key value s' :
  putWithContextAndFlags stc key value false (mkSt ic v) = Ok (tt, s') →
  len key ≤ 1024 ∧ writeEligible (trigger ic) ∧
  bc (st_ic s') = bc ic ∧
  ∀ kitem rest ctxs, Bytes kitem = Some key →
    run storageGet (st_ic s') (mkVM (storageArgs stc kitem rest) ctxs)
    = Ok (st_ic s', mkVM (ByteArrayItem value :: rest) ctxs).
Proof.
  intros Hput. apply putWithContextAndFlags_Ok in Hput as (Ht & Hlen & Hro & Hc & ->).
  simpl. repeat split; try done.
  intros kitem rest ctxs Hk.
  rewrite (storageGet_valid _ _ _ key) by done.
  unfold lookupStorageItem, getStorageItemFromStore, putStorageItemIntoStore. simpl.
  rewrite lookup_insert_eq. reflexivity.
Qed.

(** C3, as the code has it (delete then get): a successful [storageDelete]
    stages a tombstone, which [storageGet] reads as a miss of the overlay; the
    get that follows answers from committed storage, so it pushes the
    committed value of the key, and an empty byte array exactly when
    committed storage has no item for it (or an empty one). *)
Theorem delete_then_get_committed ic stc kitem key rest ctxs ic' v' :
  Bytes kitem = Some key →
  run storageDelete ic (mkVM (storageArgs stc kitem rest) ctxs) = Ok (ic', v') →
  ∀ rest' ctxs',
    run storageGet ic' (mkVM (storageArgs stc kitem rest') ctxs')
    = Ok (ic', mkVM (ByteArrayItem
                       (from_option Value [] (GetStorageItem (bc ic) (ScriptHash stc) key))
                     :: rest') ctxs').
Proof.
  intros Hk Hdel. apply (storageDelete_Ok _ _ _ key) in Hdel as (Ht & Hro & Hc & -> & ->); [|done].
  intros rest' ctxs'.
  rewrite (storageGet_valid _ _ _ key) by done.
  unfold lookupStorageItem, getStorageItemFromStore, deleteStorageItemInStore. simpl.
  rewrite lookup_insert_eq. reflexivity.
Qed.

(** A constant item stops [putWithContextAndFlags] whatever else holds. *)
Lemma put_const_isErr ic stc key si value isConst v :
  lookupStorageItem ic (ScriptHash stc) key = Some si → IsConst si = true →
  isErr (putWithContextAndFlags stc key value isConst (mkSt ic v)).
Proof.
  intros Hl Hconst. unfold putWithContextAndFlags. unfold_M. simpl.
  destruct (decide _); [done|]. destruct (decide _); [done|].
  destruct (ReadOnly stc); [done|].
  destruct (checkStorageContext ic stc) as [?|[]]; [done|]. simpl.
  rewrite Hl. simpl. rewrite Hconst. done.
Qed.

(** ... and stops [storageDelete] likewise. *)
Lemma delete_const_isErr ic stc kitem key si rest ctxs :
  Bytes kitem = Some key →
  lookupStorageItem ic (ScriptHash stc) key = Some si → IsConst si = true →
  isErr (run storageDelete ic (mkVM (storageArgs stc kitem rest) ctxs)).
Proof.
  intros Hk Hl Hconst. unfold storageDelete, storageArgs. unfold_M. simpl.
  destruct (decide _); [done|]. simpl.
  destruct (ReadOnly stc); [done|].
  destruct (checkStorageContext ic stc) as [?|[]]; [done|]. simpl.
  rewrite Hk. simpl. rewrite Hl. simpl. rewrite Hconst. done.
Qed.

(** C4, as the code has it (constant items): when the item found for a key,
    in the staged overlay or failing that in committed storage, is constant,
    put fails whatever the new value and flag, and so does delete: neither
    ever succeeds, so neither overwrites or removes the item.  The error is
    the const violation whenever the checks that come before it in the
    handler pass (trigger, key length for put, writable and valid context);
    where one of those fails, its own error is returned. *)
Theorem const_item_rejects_put_and_delete ic stc key si :
  lookupStorageItem ic (ScriptHash stc) key = Some si → IsConst si = true →
  (∀ value isConst v,
     isErr (putWithContextAndFlags stc key value isConst (mkSt ic v))) ∧
  (∀ value isConst v,
     writeEligible (trigger ic) → len key ≤ MaxStorageKeyLen → ReadOnly stc = false →
     checkStorageContext ic stc = inr tt →
     ∃ e, putWithContextAndFlags stc key value isConst (mkSt ic v) = Err e ∧ ConstViolation e) ∧
  (∀ kitem rest ctxs, Bytes kitem = Some key →
     isErr (run storageDelete ic (mkVM (storageArgs stc kitem rest) ctxs))) ∧
  (∀ kitem rest ctxs, Bytes kitem = Some key →
     writeEligible (trigger ic) → ReadOnly stc = false →
     checkStorageContext ic stc = inr tt →
     ∃ e, run storageDelete ic (mkVM (storageArgs stc kitem rest) ctxs) = Err e ∧ ConstViolation e).
Proof.
  intros Hl Hconst. split; [|split; [|split]].
  - intros. by eapply put_const_isErr.
  - intros value isConst v Ht Hlen Hro Hc. eexists. split; [|left; reflexivity].
    unfold putWithContextAndFlags. unfold_M. simpl.
    rewrite writeEligible_guard by done.
    destruct (decide (Z.of_nat (length key) > MaxStorageKeyLen)); [unfold len in Hlen; lia|].
    rewrite Hro, Hc. simpl. rewrite Hl. simpl. rewrite Hconst. reflexivity.
  - intros. by eapply delete_const_isErr.
  - intros kitem rest ctxs Hk Ht Hro Hc. eexists. split; [|right; reflexivity].
    unfold storageDelete, storageArgs. unfold_M. simpl.
    rewrite writeEligible_guard by done. simpl.
    rewrite Hro, Hc. simpl. rewrite Hk. simpl. rewrite Hl. simpl. rewrite Hconst. reflexivity.
Qed.

(** [storageContextAsReadOnly] on a context. *)
Lemma storageContextAsReadOnly_run ic stc rest ctxs :
  run storageContextAsReadOnly ic (mkVM (InteropItem (VStorageContext stc) :: rest) ctxs)
  = Ok (ic, mkVM (InteropItem (VStorageContext
                    (if ReadOnly stc then stc else mkStorageContext (ScriptHash stc) true))
                  :: rest) ctxs).
Proof.
  unfold storageContextAsReadOnly. unfold_M. simpl. destruct (ReadOnly stc); reflexivity.
Qed.

(** C9, as the code has it (read-only contexts): through a read-only
    context put and delete never succeed, and they fail with the read-only
    error whenever the checks that come before it in the handler pass (the
    trigger, and the key length for put); where one of those fails, its own
    error is returned.  [storageContextAsReadOnly] hands a read-only context
    back unchanged and otherwise makes a context with the same script hash
    and the flag set, so that applying it to its own result changes
    nothing. *)
Theorem read_only_context ic stc :
  (ReadOnly stc = true →
     (∀ key value isConst v,
        isErr (putWithContextAndFlags stc key value isConst (mkSt ic v))) ∧
     (∀ key value isConst v,
        writeEligible (trigger ic) → len key ≤ MaxStorageKeyLen →
        ∃ e, putWithContextAndFlags stc key value isConst (mkSt ic v) = Err e ∧ ReadOnlyContext e) ∧
     (∀ kitem rest ctxs,
        isErr (run storageDelete ic (mkVM (storageArgs stc kitem rest) ctxs))) ∧
     (∀ kitem rest ctxs,
        writeEligible (trigger ic) →
        ∃ e, run storageDelete ic (mkVM (storageArgs stc kitem rest) ctxs) = Err e ∧ ReadOnlyContext e)) ∧
  (∀ rest ctxs, ∃ stc',
     run storageContextAsReadOnly ic (mkVM (InteropItem (VStorageContext stc) :: rest) ctxs)
       = Ok (ic, mkVM (InteropItem (VStorageContext stc') :: rest) ctxs) ∧
     ScriptHash stc' = ScriptHash stc ∧ ReadOnly stc' = true ∧
     (ReadOnly stc = true → stc' = stc) ∧
     run storageContextAsReadOnly ic (mkVM (InteropItem (VStorageContext stc') :: rest) ctxs)
       = Ok (ic, mkVM (InteropItem (VStorageContext stc') :: rest) ctxs)).
Proof.
  split.
  - intros Hro. split; [|split; [|split]].
    + intros key value isConst v. unfold putWithContextAndFlags. unfold_M. simpl.
      destruct (decide _); [done|]. destruct (decide _); [done|]. rewrite Hro. done.
    + intros key value isConst v Ht Hlen. eexists. split; [|reflexivity].
      unfold putWithContextAndFlags. unfold_M. simpl.
      rewrite writeEligible_guard by done.
      destruct (decide (Z.of_nat (length key) > MaxStorageKeyLen)); [unfold len in Hlen; lia|].
      rewrite Hro. reflexivity.
    + intros kitem rest ctxs. unfold storageDelete, storageArgs. unfold_M. simpl.
      destruct (decide _); [done|]. simpl. rewrite Hro. done.
    + intros kitem rest ctxs Ht. eexists. split; [|reflexivity].
      unfold storageDelete, storageArgs. unfold_M. simpl.
      rewrite writeEligible_guard by done. simpl. rewrite Hro. reflexivity.
  - intros rest ctxs.
    exists (if ReadOnly stc then stc else mkStorageContext (ScriptHash stc) true).
    rewrite !storageContextAsReadOnly_run.
    destruct (ReadOnly stc) eqn:Hro; simpl; rewrite ?Hro; repeat split; done.
Qed.

End Storage.

(** A put of [0x02] under the sample key, then a get. *)
Lemma put_then_get_witness :
  run (storageGet (ext := sampleExternals)) putIC sampleStorageVM
  = Ok (putIC, mkVM [ByteArrayItem [Byte.x02]] []).
Proof.
  refine (proj2 (proj2 (proj2
    (put_then_get (ext := sampleExternals) (sampleIC sampleLedger) (mkVM [] [])
       writableCtx sampleKey [Byte.x02] (mkSt putIC (mkVM [] [])) _)))
    (ByteArrayItem sampleKey) [] [] _); reflexivity.
Defined.

(** C3 as stated fails: with the sample key committed with value [0x01], a
    delete through a writable context succeeds and the get that follows
    pushes the committed [0x01], not an empty byte array. *)
Lemma delete_then_get_counterexample :
  run (storageDelete (ext := sampleExternals)) (sampleIC sampleLedger) sampleStorageVM
    = Ok (deletedIC, mkVM [] []) ∧
  run (storageGet (ext := sampleExternals)) deletedIC sampleStorageVM
    = Ok (deletedIC, mkVM [ByteArrayItem [Byte.x01]] []) ∧
  run (storageGet (ext := sampleExternals)) deletedIC sampleStorageVM
    ≠ Ok (deletedIC, mkVM [ByteArrayItem []] []).
Proof. split; [reflexivity|split; [reflexivity|discriminate]]. Qed.

(** After the delete of the sample key, the get answers with the committed
    value. *)
Lemma delete_then_get_committed_witness :
  run (storageGet (ext := sampleExternals)) deletedIC sampleStorageVM
  = Ok (deletedIC, mkVM [ByteArrayItem [Byte.x01]] []).
Proof.
  refine (delete_then_get_committed (ext := sampleExternals) (sampleIC sampleLedger)
            writableCtx (ByteArrayItem sampleKey) sampleKey [] [] deletedIC (mkVM [] [])
            _ _ [] []); reflexivity.
Defined.

(** C4 as stated fails.  With the sample item constant, put and delete
    through the read-only sample context return the read-only error, which
    is no const violation.  And a constant item can be removed: once the
    sample contract has put a constant [0x02] under the sample key, over the
    committed [0x01], [contractDestroy] stages a tombstone for the key, the
    lookup finds the committed item again, and a put of [0x03] succeeds. *)
Lemma const_item_error_counterexample :
  lookupStorageItem (sampleIC constLedger) (ScriptHash readOnlyCtx) sampleKey
    = Some (mkStorageItem [Byte.x01] true) ∧
  run (storagePut (ext := sampleExternals)) (sampleIC constLedger)
    (mkVM (storageArgs readOnlyCtx (ByteArrayItem sampleKey) [ByteArrayItem [Byte.x02]]) [])
    = Err (errorsNew "StorageContext is read only") ∧
  run (storageDelete (ext := sampleExternals)) (sampleIC constLedger)
    (mkVM (storageArgs readOnlyCtx (ByteArrayItem sampleKey) []) [])
    = Err (errorsNew "StorageContext is read only") ∧
  ¬ ConstViolation (errorsNew "StorageContext is read only") ∧
  run (storagePutEx (ext := sampleExternals)) (sampleIC sampleLedger)
    (mkVM (storageArgs writableCtx (ByteArrayItem sampleKey)
             [ByteArrayItem [Byte.x02]; BigIntegerItem 1]) [sampleScript])
    = Ok (sealedIC, mkVM [] [sampleScript]) ∧
  lookupStorageItem sealedIC sampleHash sampleKey = Some (mkStorageItem [Byte.x02] true) ∧
  run (contractDestroy (ext := sampleExternals)) sealedIC (mkVM [] [sampleScript])
    = Ok (destroyedIC, mkVM [] [sampleScript]) ∧
  lookupStorageItem destroyedIC sampleHash sampleKey = Some (mkStorageItem [Byte.x01] false) ∧
  run (storagePut (ext := sampleExternals)) destroyedIC
    (mkVM (storageArgs writableCtx (ByteArrayItem sampleKey) [ByteArrayItem [Byte.x03]])
       [sampleScript])
    = Ok (reputIC, mkVM [] [sampleScript]).
Proof.
  repeat apply conj; try reflexivity. intros [H|H]; discriminate H.
Qed.

(** With the sample item constant, put and delete report the const
    violation. *)
Lemma const_item_rejects_put_and_delete_witness :
  (∃ e, putWithContextAndFlags (ext := sampleExternals) writableCtx sampleKey [Byte.x02] false
          (mkSt (sampleIC constLedger) (mkVM [] [])) = Err e ∧ ConstViolation e) ∧
  (∃ e, run (storageDelete (ext := sampleExternals)) (sampleIC constLedger) sampleStorageVM = Err e
        ∧ ConstViolation e).
Proof.
  pose proof (const_item_rejects_put_and_delete (ext := sampleExternals)
                (sampleIC constLedger) writableCtx sampleKey (mkStorageItem [Byte.x01] true)
                eq_refl eq_refl) as (_ & Hput & _ & Hdel).
  split.
  - apply Hput; [left; reflexivity | vm_compute; discriminate | reflexivity | reflexivity].
  - apply (Hdel (ByteArrayItem sampleKey) [] []); [reflexivity | left; reflexivity | reflexivity | reflexivity].
Defined.

(** C9 as stated fails: through the read-only sample context a put of a
    key of 1025 bytes returns the key-length error, and under the
    verification trigger put and delete return the trigger error; neither is
    the read-only error. *)
Lemma read_only_error_counterexample :
  run (storagePut (ext := sampleExternals)) (sampleIC sampleLedger)
    (mkVM (storageArgs readOnlyCtx (ByteArrayItem longKey) [ByteArrayItem [Byte.x02]]) [])
    = Err (errorsNew "key is too big") ∧
  ¬ ReadOnlyContext (errorsNew "key is too big") ∧
  run (storagePut (ext := sampleExternals)) verificationIC
    (mkVM (storageArgs readOnlyCtx (ByteArrayItem sampleKey) [ByteArrayItem [Byte.x02]]) [])
    = Err (errorsNew "can't delete when the trigger is not application") ∧
  run (storageDelete (ext := sampleExternals)) verificationIC
    (mkVM (storageArgs readOnlyCtx (ByteArrayItem sampleKey) []) [])
    = Err (errorsNew "can't delete when the trigger is not application") ∧
  ¬ ReadOnlyContext (errorsNew "can't delete when the trigger is not application").
Proof.
  repeat apply conj; try reflexivity; intros H; discriminate H.
Qed.

(** Through the read-only sample context, put and delete report the
    read-only error. *)
Lemma read_only_context_witness :
  (∃ e, putWithContextAndFlags (ext := sampleExternals) readOnlyCtx sampleKey [Byte.x02] false
          (mkSt (sampleIC sampleLedger) (mkVM [] [])) = Err e ∧ ReadOnlyContext e) ∧
  (∃ e, run (storageDelete (ext := sampleExternals)) (sampleIC sampleLedger)
          (mkVM (storageArgs readOnlyCtx (ByteArrayItem sampleKey) []) []) = Err e
        ∧ ReadOnlyContext e).
Proof.
  pose proof (proj1 (read_only_context (ext := sampleExternals) (sampleIC sampleLedger) readOnlyCtx)
                eq_refl) as (_ & Hput & _ & Hdel).
  split.
  - apply Hput; [left; reflexivity | vm_compute; discriminate].
  - apply Hdel. left; reflexivity.
Defined.

Section Assets.

Context {ext : Externals}.

(** Narrowing the popped integer to a byte keeps its residue modulo 256. *)
Lemma toByte_Int64 n : toByte (Int64 n) = n mod 256.
Proof.
  unfold toByte, Int64. rewrite (Z.mod_eq (n + 2 ^ 63)) by lia.
  replace (n + 2 ^ 63 - 2 ^ 64 * ((n + 2 ^ 63) / 2 ^ 64) - 2 ^ 63)
    with (n + (- (2 ^ 56 * ((n + 2 ^ 63) / 2 ^ 64))) * 256) by lia.
  apply Z.mod_add. lia.
Qed.

(** [assetRenew] on an asset the ledger holds, under the application
    trigger. *)
Lemma assetRenew_run ic a yitem n asset rest ctxs :
  trigger ic = Application → BigInt yitem = Some n →
  GetAssetState (bc ic) (ID a) = Some asset →
  let h1 := toUint32 (blockHeight (bc ic) + 1) in
  let exp0 := if decide (Expiration asset < h1) then h1 else Expiration asset in
  let e := exp0 + (n mod 256) * BlocksPerYear in
  let e' := if decide (e > MaxUint32) then MaxUint32 else e in
  run assetRenew ic (mkVM (InteropItem (VAsset a) :: yitem :: rest) ctxs)
  = Ok (withBC ic (PutAssetState (bc ic) (withExpiration asset (toUint32 e'))),
        mkVM (BigIntegerItem e' :: rest) ctxs).
Proof.
  intros Ht Hy Ha. unfold assetRenew, asAsset. unfold_M. simpl.
  rewrite Ht. destruct (decide (Application ≠ Application)); [done|]. simpl.
  rewrite Hy. simpl. rewrite Ha, toByte_Int64. simpl. reflexivity.
Qed.

(** C10 (years are read modulo 256): [assetRenew] narrows the popped years
    to a byte, so on every context and stack it behaves with years [n] as it
    does with [n mod 256], and with 256 as with 0.  For an asset the ledger
    holds, under the application trigger, what it stores and pushes is the
    expiration raised to the 32-bit successor of the current height, plus
    [n mod 256] times 2,000,000 blocks, clamped to the largest 32-bit value;
    with 256 years nothing is added. *)
Theorem assetRenew_years_mod_256 ic x n rest ctxs :
  run assetRenew ic (mkVM (x :: BigIntegerItem n :: rest) ctxs)
  = run assetRenew ic (mkVM (x :: BigIntegerItem (n mod 256) :: rest) ctxs) ∧
  run assetRenew ic (mkVM (x :: BigIntegerItem 256 :: rest) ctxs)
  = run assetRenew ic (mkVM (x :: BigIntegerItem 0 :: rest) ctxs) ∧
  ∀ a asset, x = InteropItem (VAsset a) → trigger ic = Application →
    GetAssetState (bc ic) (ID a) = Some asset →
    let renewed years :=
      renewSpec (toUint32 (blockHeight (bc ic) + 1)) (Expiration asset) years in
    run assetRenew ic (mkVM (x :: BigIntegerItem n :: rest) ctxs)
    = Ok (withBC ic (PutAssetState (bc ic) (withExpiration asset (toUint32 (renewed (n mod 256))))),
          mkVM (BigIntegerItem (renewed (n mod 256)) :: rest) ctxs) ∧
    run assetRenew ic (mkVM (x :: BigIntegerItem 256 :: rest) ctxs)
    = Ok (withBC ic (PutAssetState (bc ic) (withExpiration asset (toUint32 (renewed 0)))),
          mkVM (BigIntegerItem (renewed 0) :: rest) ctxs).
Proof.
  assert (Hmod : ∀ m, run assetRenew ic (mkVM (x :: BigIntegerItem m :: rest) ctxs)
                    = run assetRenew ic (mkVM (x :: BigIntegerItem (m mod 256) :: rest) ctxs)).
  { intros m. unfold assetRenew, asAsset. unfold_M. simpl.
    destruct (decide _); [reflexivity|].
    destruct x as [?|?|?|[]]; simpl; try reflexivity.
    rewrite !toByte_Int64, Z.mod_mod by lia. reflexivity. }
  split; [apply Hmod|]. split; [rewrite (Hmod 256); reflexivity|].
  intros a asset -> Ht Ha renewed.
  assert (Hrun : ∀ m, run assetRenew ic (mkVM (InteropItem (VAsset a) :: BigIntegerItem m :: rest) ctxs)
            = Ok (withBC ic (PutAssetState (bc ic)
                               (withExpiration asset (toUint32 (renewed (m mod 256))))),
                  mkVM (BigIntegerItem (renewed (m mod 256)) :: rest) ctxs)).
  { intros m. rewrite (assetRenew_run ic a _ m asset) by done.
    assert (He : (if decide ((if decide (Expiration asset < toUint32 (blockHeight (bc ic) + 1))
                              then toUint32 (blockHeight (bc ic) + 1) else Expiration asset)
                             + m mod 256 * BlocksPerYear > MaxUint32)
                  then MaxUint32
                  else (if decide (Expiration asset < toUint32 (blockHeight (bc ic) + 1))
                        then toUint32 (blockHeight (bc ic) + 1) else Expiration asset)
                       + m mod 256 * BlocksPerYear) = renewed (m mod 256)).
    { unfold renewed, renewSpec, BlocksPerYear, MaxUint32. repeat destruct (decide _); lia. }
    rewrite He. reflexivity. }
  split; [apply Hrun|]. apply (Hrun 256).
Qed.

(** C5, as the code has it (renewal): under the application trigger, for an
    asset the ledger holds with a 32-bit expiration, [assetRenew] raises the
    expiration to the 32-bit successor of the current height if it is below
    it, adds [years mod 256] times 2,000,000 blocks, clamps to the largest
    32-bit value, stores the asset with that expiration and pushes it.  The
    result is never below the old expiration and never above the 32-bit
    maximum, and it is the old expiration when the years are 0 modulo 256 and
    the asset has not expired. *)
Theorem assetRenew_expiration ic a years asset rest ctxs :
  trigger ic = Application →
  GetAssetState (bc ic) (ID a) = Some asset →
  0 ≤ Expiration asset ≤ MaxUint32 →
  0 ≤ blockHeight (bc ic) ≤ MaxUint32 →
  let h1 := toUint32 (blockHeight (bc ic) + 1) in
  let e' := renewSpec h1 (Expiration asset) (years mod 256) in
  run assetRenew ic (mkVM (InteropItem (VAsset a) :: BigIntegerItem years :: rest) ctxs)
  = Ok (withBC ic (PutAssetState (bc ic) (withExpiration asset e')),
        mkVM (BigIntegerItem e' :: rest) ctxs) ∧
  (blockHeight (bc ic) < MaxUint32 → h1 = blockHeight (bc ic) + 1) ∧
  Expiration asset ≤ e' ∧ e' ≤ MaxUint32 ∧
  (years mod 256 = 0 → h1 ≤ Expiration asset → e' = Expiration asset).
Proof.
  intros Ht Ha Hexp Hh h1 e'.
  assert (Hy : 0 ≤ years mod 256 < 256) by (apply Z.mod_pos_bound; lia).
  assert (Hh1 : 0 ≤ h1 < 2 ^ 32) by (apply Z.mod_pos_bound; lia).
  unfold MaxUint32 in *.
  assert (He' : Expiration asset ≤ e' ∧ e' ≤ 2 ^ 32 - 1).
  { unfold e', renewSpec. lia. }
  split; [|split; [|split; [|split]]]; try apply He'.
  - rewrite (assetRenew_run ic a _ years asset) by done.
    fold h1. unfold BlocksPerYear, MaxUint32.
    assert (He : (if decide ((if decide (Expiration asset < h1) then h1 else Expiration asset)
                              + years mod 256 * 2000000 > 2 ^ 32 - 1)
                  then 2 ^ 32 - 1
                  else (if decide (Expiration asset < h1) then h1 else Expiration asset)
                       + years mod 256 * 2000000) = e').
    { unfold e', renewSpec. repeat destruct (decide _); lia. }
    rewrite He. unfold toUint32. rewrite Z.mod_small by lia. reflexivity.
  - intros Hlt. unfold h1, toUint32. apply Z.mod_small. lia.
  - intros H0 Hle. unfold e', renewSpec. rewrite H0. lia.
Qed.




End Assets.

(** C5 as stated fails: renewing the sample asset (expiration 100, height 7)
    with 256 years pushes 100, where adding 256 * 2,000,000 blocks would give
    512,000,100. *)
Lemma assetRenew_years_counterexample :
  run (assetRenew (ext := sampleExternals)) (sampleIC assetLedger) (renewVM 256)
    = Ok (withBC (sampleIC assetLedger) (PutAssetState assetLedger sampleAsset),
          mkVM [BigIntegerItem 100] []) ∧
  renewSpec (7 + 1) 100 256 = 512000100 ∧
  100 ≠ renewSpec (7 + 1) 100 256.
Proof. split; [reflexivity|split; [reflexivity|discriminate]]. Qed.

(** Renewing the sample asset for 3 years moves its expiration from 100 to
    6,000,100. *)
Lemma assetRenew_expiration_witness :
  run (assetRenew (ext := sampleExternals)) (sampleIC assetLedger) (renewVM 3)
  = Ok (withBC (sampleIC assetLedger)
          (PutAssetState assetLedger (withExpiration sampleAsset 6000100)),
        mkVM [BigIntegerItem 6000100] []).
Proof.
  refine (proj1 (assetRenew_expiration (ext := sampleExternals) (sampleIC assetLedger)
                   sampleAsset 3 sampleAsset [] [] _ _ _ _)); vm_compute; auto; split; discriminate.
Defined.

(** Renewing the sample asset for 259 years renews it for 3. *)
Lemma assetRenew_years_mod_256_witness :
  run (assetRenew (ext := sampleExternals)) (sampleIC assetLedger) (renewVM 259)
  = Ok (withBC (sampleIC assetLedger)
          (PutAssetState assetLedger (withExpiration sampleAsset 6000100)),
        mkVM [BigIntegerItem 6000100] []).
Proof.
  exact (proj1 (proj2 (proj2 (assetRenew_years_mod_256 (ext := sampleExternals)
                                (sampleIC assetLedger) (InteropItem (VAsset sampleAsset)) 259 [] []))
                  sampleAsset sampleAsset eq_refl eq_refl eq_refl)).
Defined.


(** With amount 200000 and precision 3 the sample creation goes through. *)
Example assetCreate_200000_succeeds :
  run (assetCreate (ext := sampleExternals)) createIC
    (mkVM (assetArgs 0x60 [] 200000 3 ownerAdminIssuer) [])
  = Ok (withBC createIC (PutAssetState emptyLedger createdAsset),
        mkVM [InteropItem (VAsset createdAsset)] []).
Proof. reflexivity. Qed.

Section Contracts.

Context {ext : Externals}.

Lemma popsOnly_ret {A} (a : A) : popsOnly (mret a).
Proof. intros s a' s' [= <- <-]. done. Qed.

Lemma popsOnly_fail {A} e : popsOnly (@fail A e).
Proof. intros s a s' [=]. Qed.

Lemma popsOnly_bind {A B} (m : M A) (f : A → M B) :
  popsOnly m → (∀ a, popsOnly (f a)) → popsOnly (m ≫= f).
Proof.
  intros Hm Hf s b s'. unfold mbind, M_bind.
  destruct (m s) as [[a s1]| |] eqn:Hms; [|done..].
  intros Hfs. destruct (Hm _ _ _ Hms) as [E1 E2]. destruct (Hf _ _ _ _ Hfs) as [E3 E4].
  split; congruence.
Qed.

Lemma popsOnly_Pop : popsOnly Pop.
Proof. intros s a s'. unfold Pop. destruct (estack (st_vm s)); [done|]. by intros [= <- <-]. Qed.

Lemma popsOnly_orPanic {A} (o : option A) : popsOnly (orPanic o).
Proof. destruct o; [apply popsOnly_ret|]. intros s a s' [=]. Qed.

Lemma popsOnly_getIC : popsOnly getIC.
Proof. intros s a s' [= <- <-]. done. Qed.

Lemma popsOnly_PopBytes : popsOnly PopBytes.
Proof. apply popsOnly_bind; [apply popsOnly_Pop | intros; apply popsOnly_orPanic]. Qed.

Lemma popsOnly_PopInt64 : popsOnly PopInt64.
Proof.
  apply popsOnly_bind; [apply popsOnly_Pop | intros].
  apply popsOnly_bind; [apply popsOnly_orPanic | intros; apply popsOnly_ret].
Qed.

Lemma popsOnly_createContractStateFromVM : popsOnly createContractStateFromVM.
Proof.
  unfold createContractStateFromVM.
  repeat first
    [ apply popsOnly_fail | apply popsOnly_ret
    | apply popsOnly_bind;
      [first [apply popsOnly_getIC | apply popsOnly_PopBytes | apply popsOnly_PopInt64] | intros ?]
    | destruct (decide _) ].
Qed.

(** A contract spec is accepted only under the application trigger, and
    accepting it leaves the context as it was. *)
Lemma createContractStateFromVM_Ok ic v newc s1 :
  createContractStateFromVM (mkSt ic v) = Ok (newc, s1) →
  trigger ic = Application ∧ st_ic s1 = ic ∧ istack (st_vm s1) = istack v.
Proof.
  intros Hc. split; [|by apply popsOnly_createContractStateFromVM in Hc].
  revert Hc. unfold createContractStateFromVM, mbind, M_bind, getIC, gets, fail. simpl.
  destruct (decide (trigger ic ≠ Application)); [done|]. intros _.
  destruct (decide (trigger ic = Application)); done.
Qed.

(** A spec within the size limits is accepted under the application
    trigger. *)
Lemma createContractStateFromVM_accepts ic c rest ctxs :
  trigger ic = Application →
  len (Script c) ≤ MaxContractScriptSize →
  len (ParamList c) ≤ MaxContractParametersNum →
  len (Name c) ≤ MaxContractStringLen → len (CodeVersion c) ≤ MaxContractStringLen →
  len (Author c) ≤ MaxContractStringLen → len (Email c) ≤ MaxContractStringLen →
  len (Description c) ≤ MaxContractDescriptionLen →
  createContractStateFromVM (mkSt ic (mkVM (contractArgs c rest) ctxs))
  = Ok (mkContract (Script c) (ParamList c) (Int64 (ReturnType c))
          (toByte (Int64 (Properties c))) (Name c) (CodeVersion c) (Author c) (Email c)
          (Description c),
        mkSt ic (mkVM rest ctxs)).
Proof.
  intros Ht ? ? ? ? ? ? ?. unfold createContractStateFromVM, contractArgs. unfold_M. simpl.
  rewrite Ht. destruct (decide (Application ≠ Application)); [done|]. simpl.
  repeat (destruct (decide _); [lia|]; simpl). reflexivity.
Qed.

(** [contractCreate] on an accepted spec. *)
Lemma contractCreate_run ic v newc s1 :
  createContractStateFromVM (mkSt ic v) = Ok (newc, s1) →
  run contractCreate ic v =
  match GetContractState (bc ic) (ContractScriptHash newc) with
  | Some contract => Ok (ic, pushContract contract (st_vm s1))
  | None => Ok (withBC ic (PutContractState (bc ic) (ContractScriptHash newc) newc),
                pushContract newc (st_vm s1))
  end.
Proof.
  intros Hc. destruct (createContractStateFromVM_Ok _ _ _ _ Hc) as (_ & Hic & _).
  destruct s1 as [ic1 v1]. simpl in Hic. subst ic1.
  unfold contractCreate, run, mbind, M_bind. rewrite Hc.
  unfold getIC, gets. simpl.
  destruct (GetContractState (bc ic) (ContractScriptHash newc)); reflexivity.
Qed.

(** C7 (create is idempotent on the script hash): for a spec that
    [createContractStateFromVM] accepts, [contractCreate] pushes the contract
    the ledger already holds under the spec's script hash and leaves the
    ledger as it is; only when there is none does it store the new state, and
    push it.  Either way the pushed contract is then the ledger's, and a
    second [contractCreate] with the same script (whatever its other fields)
    pushes that same contract and changes nothing. *)
Theorem contractCreate_idempotent ic v newc s1 :
  createContractStateFromVM (mkSt ic v) = Ok (newc, s1) →
  let h := ContractScriptHash newc in
  (∀ existing, GetContractState (bc ic) h = Some existing →
     run contractCreate ic v = Ok (ic, pushContract existing (st_vm s1))) ∧
  (GetContractState (bc ic) h = None →
     run contractCreate ic v
     = Ok (withBC ic (PutContractState (bc ic) h newc), pushContract newc (st_vm s1))) ∧
  ∃ c ic1,
    run contractCreate ic v = Ok (ic1, pushContract c (st_vm s1)) ∧
    GetContractState (bc ic1) h = Some c ∧
    ∀ v2 newc2 s2,
      createContractStateFromVM (mkSt ic1 v2) = Ok (newc2, s2) →
      Script newc2 = Script newc →
      run contractCreate ic1 v2 = Ok (ic1, pushContract c (st_vm s2)).
Proof.
  intros Hc h. pose proof (contractCreate_run _ _ _ _ Hc) as Hrun. fold h in Hrun.
  split; [|split].
  - intros existing He. by rewrite Hrun, He.
  - intros Hn. by rewrite Hrun, Hn.
  - destruct (GetContractState (bc ic) h) as [existing|] eqn:He.
    + exists existing, ic. repeat split; [done..|].
      intros v2 newc2 s2 Hc2 Hs. rewrite (contractCreate_run _ _ _ _ Hc2).
      unfold ContractScriptHash. rewrite Hs. fold (ContractScriptHash newc). fold h.
      by rewrite He.
    + exists newc, (withBC ic (PutContractState (bc ic) h newc)).
      assert (Hget : GetContractState (bc (withBC ic (PutContractState (bc ic) h newc))) h
                     = Some newc).
      { unfold GetContractState. simpl. apply lookup_insert_eq. }
      repeat split; [done..|].
      intros v2 newc2 s2 Hc2 Hs. rewrite (contractCreate_run _ _ _ _ Hc2).
      unfold ContractScriptHash. rewrite Hs. fold (ContractScriptHash newc). fold h.
      by rewrite Hget.
Qed.


(** The loop of [contractDestroy]: a tombstone is staged for every key of
    [siMap] under the contract's hash; nothing else of the overlay changes. *)
Lemma destroy_fold_spec (mem1 : Store) (hash : Uint160) (siMap : gmap bytes StorageItem) :
  let m := map_fold (λ k (_ : StorageItem) m, deleteStorageItemInStore m hash k) mem1 siMap in
  memContracts m = memContracts mem1 ∧
  (∀ k, is_Some (siMap !! k) → memStorage m !! (hash, k) = Some Tombstone) ∧
  (∀ h' k', ¬ (h' = hash ∧ is_Some (siMap !! k')) →
            memStorage m !! (h', k') = memStorage mem1 !! (h', k')).
Proof.
  simpl.
  apply (map_fold_weak_ind (λ r (m : gmap bytes StorageItem),
    memContracts r = memContracts mem1 ∧
    (∀ k, is_Some (m !! k) → memStorage r !! (hash, k) = Some Tombstone) ∧
    (∀ h' k', ¬ (h' = hash ∧ is_Some (m !! k')) →
              memStorage r !! (h', k') = memStorage mem1 !! (h', k')))).
  - split; [done|]. split; [|done]. intros k. rewrite lookup_empty. by intros [? ?].
  - intros i x m r Hi (Hc & Hin & Hout). split; [done|]. split.
    + intros k Hk. unfold deleteStorageItemInStore. simpl.
      destruct (decide (i = k)) as [->|Hne]; [apply lookup_insert_eq|].
      rewrite lookup_insert_ne by congruence. apply Hin.
      by rewrite lookup_insert_ne in Hk.
    + intros h' k' Hnot. unfold deleteStorageItemInStore. simpl.
      destruct (decide ((hash, i) = (h', k'))) as [[= <- <-]|Hne].
      * destruct Hnot. split; [done|]. rewrite lookup_insert_eq. by eexists.
      * rewrite lookup_insert_ne by done. apply Hout. intros [-> Hk].
        apply Hnot. split; [done|].
        destruct (decide (i = k')) as [->|Hik]; [congruence|].
        by rewrite lookup_insert_ne.
Qed.



End Contracts.

(** Creating the new contract on the sample ledger stores and pushes it. *)
Lemma contractCreate_idempotent_witness :
  run (contractCreate (ext := sampleExternals)) (sampleIC sampleLedger) migrateVM
  = Ok (withBC (sampleIC sampleLedger) (PutContractState sampleLedger newHash newContract),
        pushContract newContract (mkVM [] [sampleScript])).
Proof.
  refine (proj1 (proj2
    (contractCreate_idempotent (ext := sampleExternals) (sampleIC sampleLedger) migrateVM
       newContract (mkSt (sampleIC sampleLedger) (mkVM [] [sampleScript])) _)) _);
    reflexivity.
Defined.

(** A second creation with the same script under other metadata returns the
    stored contract and stores nothing. *)
Example contractCreate_twice :
  run (contractCreate (ext := sampleExternals))
    (withBC (sampleIC sampleLedger) (PutContractState sampleLedger newHash newContract))
    (mkVM (contractArgs newContract' []) [sampleScript])
  = Ok (withBC (sampleIC sampleLedger) (PutContractState sampleLedger newHash newContract),
        pushContract newContract (mkVM [] [sampleScript])).
Proof. reflexivity. Qed.



(** The whole migration of the sample contract, computed. *)
Example contractMigrate_sample :
  run (contractMigrate (ext := sampleExternals)) (sampleIC constLedger) migrateVM
  = Ok (mkIC migratedLedger emptyStore Application None None,
        pushContract newContract (mkVM [] [sampleScript])).
Proof. reflexivity. Qed.

(** * Further properties of the handlers *)

Section AccessorProperties.

Context {ext : Externals}.
Variable HeaderHash : Header → Uint256.

(** X1 (lookup by index and by hash agree): for a block index of at most
    five encoded bytes whose header hash has 32 bytes, [bcGetBlock] and
    [bcGetHeader] give the same outcome for the index as for the reversed
    bytes of [GetHeaderHash] of that index. *)
Theorem lookup_by_index_and_by_hash_agree ic i rest ctxs :
  0 ≤ i ≤ MaxUint32 → (length (IntToBytes i) ≤ 5)%nat →
  length (GetHeaderHash (bc ic) i) = 32%nat →
  run bcGetBlock ic (mkVM (BigIntegerItem i :: rest) ctxs)
  = run bcGetBlock ic (mkVM (ByteArrayItem (reverse (GetHeaderHash (bc ic) i)) :: rest) ctxs) ∧
  run bcGetHeader ic (mkVM (BigIntegerItem i :: rest) ctxs)
  = run bcGetHeader ic (mkVM (ByteArrayItem (reverse (GetHeaderHash (bc ic) i)) :: rest) ctxs).
Proof.
  intros Hi Hlen H32.
  assert (Hrev : length (reverse (GetHeaderHash (bc ic) i)) = 32%nat)
    by (by rewrite length_reverse).
  split; unfold bcGetBlock, bcGetHeader, run, mbind, M_bind, getIC, gets, Pop; simpl;
    rewrite (getBlockHashFromElement_index _ _ _ Hlen Hi),
            (getBlockHashFromElement_hash _ _ _ Hrev), reverse_involutive; reflexivity.
Qed.

(** X2 (index or hash, by encoded length): an element of at most five bytes
    is a block index, refused with "bad block index" when its 64-bit value is
    negative or above the 32-bit maximum; a longer element is a hash, decoded
    only when it has exactly 32 bytes and an error otherwise, whatever number
    it encodes. *)
Theorem block_element_by_length l element hb z s :
  Bytes element = Some hb → BigInt element = Some z →
  ((length hb ≤ 5)%nat → Int64 z < 0 ∨ Int64 z > MaxUint32 →
     getBlockHashFromElement l element s = Err (errorsNew "bad block index")) ∧
  ((length hb ≤ 5)%nat → 0 ≤ Int64 z ≤ MaxUint32 →
     getBlockHashFromElement l element s = Ok (GetHeaderHash l (Int64 z), s)) ∧
  ((length hb > 5)%nat → length hb ≠ 32%nat →
     isErr (getBlockHashFromElement l element s)) ∧
  (length hb = 32%nat → getBlockHashFromElement l element s = Ok (reverse hb, s)).
Proof.
  intros Hb Hz. unfold getBlockHashFromElement, Uint256DecodeReverseBytes. unfold_M.
  rewrite Hb, Hz. simpl. repeat split.
  - intros Hlen Hbad. destruct (decide _); [|lia]. destruct (decide _); [done|tauto].
  - intros Hlen Hok. destruct (decide _); [|lia]. destruct (decide _); [lia|done].
  - intros Hlen Hne. destruct (decide _); [lia|]. destruct (decide _); done.
  - intros Hlen. destruct (decide _); [lia|]. destruct (decide _); done.
Qed.

(** X3 (a block where a header is expected, not the reverse): every header
    accessor gives on a block handle the outcome it gives on the handle of the
    block's header, while the block accessors refuse a header handle; on a
    value that is neither, the header accessors return "value is not a header
    or block". *)
Theorem header_accessors_accept_block ic b rest ctxs :
  let onBlock := mkVM (InteropItem (VBlock b) :: rest) ctxs in
  let onHeader := mkVM (InteropItem (VHeader (blockHeader b)) :: rest) ctxs in
  run headerGetIndex ic onBlock = run headerGetIndex ic onHeader ∧
  run (headerGetHash HeaderHash) ic onBlock = run (headerGetHash HeaderHash) ic onHeader ∧
  run headerGetPrevHash ic onBlock = run headerGetPrevHash ic onHeader ∧
  run headerGetTimestamp ic onBlock = run headerGetTimestamp ic onHeader ∧
  run headerGetVersion ic onBlock = run headerGetVersion ic onHeader ∧
  run headerGetMerkleRoot ic onBlock = run headerGetMerkleRoot ic onHeader ∧
  run headerGetNextConsensus ic onBlock = run headerGetNextConsensus ic onHeader ∧
  run blockGetTransactionCount ic onHeader = Err (errorsNew "value is not a block") ∧
  run blockGetTransaction ic onHeader = Err (errorsNew "value is not a block") ∧
  ∀ x, (∀ h, x ≠ InteropItem (VHeader h)) → (∀ b', x ≠ InteropItem (VBlock b')) →
    let onOther := mkVM (x :: rest) ctxs in
    let refused := Err (errorsNew "value is not a header or block") in
    run headerGetIndex ic onOther = refused ∧
    run (headerGetHash HeaderHash) ic onOther = refused ∧
    run headerGetPrevHash ic onOther = refused ∧
    run headerGetTimestamp ic onOther = refused ∧
    run headerGetVersion ic onOther = refused ∧
    run headerGetMerkleRoot ic onOther = refused ∧
    run headerGetNextConsensus ic onOther = refused.
Proof.
  repeat apply conj; try reflexivity.
  intros x Hh Hb onOther refused. subst onOther refused.
  destruct x as [?|?|?|[blk|hdr| | | |]];
    try (repeat apply conj; reflexivity).
  - by destruct (Hb blk).
  - by destruct (Hh hdr).
Qed.

(** X4 (transaction index bounds): on a block handle, [blockGetTransaction]
    pushes the transaction at the popped index exactly when the index is at
    least 0 and below the count [blockGetTransactionCount] pushes, and
    returns "wrong transaction index" otherwise; it never indexes out of
    range. *)
Theorem blockGetTransaction_bounds ic b iitem z rest ctxs :
  BigInt iitem = Some z →
  let count := Z.of_nat (length (Transactions b)) in
  run blockGetTransactionCount ic (mkVM (InteropItem (VBlock b) :: rest) ctxs)
    = Ok (ic, mkVM (BigIntegerItem count :: rest) ctxs) ∧
  (0 ≤ Int64 z < count →
     ∃ t, Transactions b !! Z.to_nat (Int64 z) = Some t ∧
          run blockGetTransaction ic (mkVM (InteropItem (VBlock b) :: iitem :: rest) ctxs)
          = Ok (ic, mkVM (InteropItem (VTransaction t) :: rest) ctxs)) ∧
  (¬ (0 ≤ Int64 z < count) →
     run blockGetTransaction ic (mkVM (InteropItem (VBlock b) :: iitem :: rest) ctxs)
     = Err (errorsNew "wrong transaction index")).
Proof.
  intros Hz count. split; [by destruct ic|]. split.
  - intros Hin.
    destruct (lookup_lt_is_Some_2 (Transactions b) (Z.to_nat (Int64 z))) as [t Ht]; [lia|].
    exists t. split; [done|]. unfold blockGetTransaction. unfold_M. simpl. rewrite Hz. simpl.
    destruct (decide _) as [Hbad|_]; [fold count in Hbad; lia|]. rewrite Ht. by destruct ic.
  - intros Hout. unfold blockGetTransaction. unfold_M. simpl. rewrite Hz. simpl.
    destruct (decide _) as [_|Hok]; [done|]. fold count in Hok. lia.
Qed.

(** X5 (a found transaction gives its hash back): when the ledger holds a
    transaction under the reversed bytes on the stack and that key is the
    transaction's own hash, [bcGetTransaction] followed by [txGetHash] leaves
    the stack as it was, and [bcGetTransactionHeight] pushes the stored
    height. *)
Theorem bcGetTransaction_then_txGetHash ic hb t h rest ctxs :
  length hb = 32%nat → transactions (bc ic) !! reverse hb = Some (t, h) →
  txHash t = reverse hb →
  run (andThen bcGetTransaction txGetHash) ic (mkVM (ByteArrayItem hb :: rest) ctxs)
    = Ok (ic, mkVM (ByteArrayItem hb :: rest) ctxs) ∧
  run bcGetTransactionHeight ic (mkVM (ByteArrayItem hb :: rest) ctxs)
    = Ok (ic, mkVM (BigIntegerItem h :: rest) ctxs).
Proof.
  intros Hlen Ht Hhash.
  unfold andThen, bcGetTransaction, bcGetTransactionHeight, txGetHash, getTransactionAndHeight,
    GetTransaction, Uint256DecodeReverseBytes.
  unfold_M. simpl. rewrite Hlen. simpl. rewrite Ht. simpl.
  rewrite Hhash, reverse_involutive. by destruct ic.
Qed.

(** X6 (a found header gives its hash back): when the ledger holds a header
    under the reversed bytes on the stack and that key is the header's own
    hash, [bcGetHeader] followed by [headerGetHash] leaves the stack as it
    was. *)
Theorem bcGetHeader_then_headerGetHash ic hb header rest ctxs :
  length hb = 32%nat → headers (bc ic) !! reverse hb = Some header →
  HeaderHash header = reverse hb →
  run (andThen bcGetHeader (headerGetHash HeaderHash)) ic (mkVM (ByteArrayItem hb :: rest) ctxs)
    = Ok (ic, mkVM (ByteArrayItem hb :: rest) ctxs).
Proof.
  intros Hlen Hh Hhash.
  unfold andThen, bcGetHeader, headerGetHash, popHeaderFromVM, run, mbind, M_bind, getIC, gets,
    Pop. simpl.
  rewrite (getBlockHashFromElement_hash _ _ _ Hlen). unfold GetHeader. rewrite Hh.
  unfold_M. simpl. rewrite Hhash, reverse_involutive. by destruct ic.
Qed.

(** X7 (a 20-byte parameter is a hash): [runtimeCheckWitness] takes 20 bytes
    as a script hash without trying them as a key, and pushes whether the
    hash is among the script hashes to verify; a failure to get those hashes
    is returned wrapped.  Bytes that are neither 20 long nor a key are
    refused. *)
Theorem runtimeCheckWitness_hash_first ic hb rest ctxs :
  (length hb = 20%nat →
     run runtimeCheckWitness ic (mkVM (ByteArrayItem hb :: rest) ctxs) =
     match GetScriptHashesForVerifying (bc ic) (tx ic) with
     | inr hashes => Ok (ic, mkVM (BoolItem (bool_decide (hb ∈ hashes)) :: rest) ctxs)
     | inl err => Err (gherrWrap (gherrWrap err "failed to get script hashes") "failed to check")
     end) ∧
  (length hb ≠ 20%nat → (∃ err, NewPublicKeyFromBytes hb = inl err) →
     run runtimeCheckWitness ic (mkVM (ByteArrayItem hb :: rest) ctxs)
     = Err (errorsNew "parameter given is neither a key nor a hash")).
Proof.
  split.
  - intros Hlen. unfold runtimeCheckWitness, Uint160DecodeBytes, checkHashedWitness.
    unfold_M. simpl. destruct (decide _); [|done].
    destruct (GetScriptHashesForVerifying (bc ic) (tx ic)); [done|]. by destruct ic.
  - intros Hlen [err Herr]. unfold runtimeCheckWitness, Uint160DecodeBytes.
    unfold_M. simpl. destruct (decide _); [done|]. by rewrite Herr.
Qed.

(** X8 (a key is checked as the hash of its signature script): for bytes that
    are not 20 long and decode to a key whose signature script hashes to 20
    bytes, [runtimeCheckWitness] gives the outcome it gives for that hash. *)
Theorem runtimeCheckWitness_key_as_hash ic kb key script rest ctxs :
  length kb ≠ 20%nat → NewPublicKeyFromBytes kb = inr key →
  CreateSignatureRedeemScript key = inr script → length (Hash160 script) = 20%nat →
  run runtimeCheckWitness ic (mkVM (ByteArrayItem kb :: rest) ctxs)
  = run runtimeCheckWitness ic (mkVM (ByteArrayItem (Hash160 script) :: rest) ctxs).
Proof.
  intros Hkb Hkey Hscript Hlen.
  unfold runtimeCheckWitness, Uint160DecodeBytes, checkKeyedWitness. unfold_M. simpl.
  destruct (decide (length kb = 20%nat)); [done|].
  destruct (decide (length (Hash160 script) = 20%nat)); [|done].
  rewrite Hkey, Hscript. reflexivity.
Qed.

End AccessorProperties.

Section StorageProperties.

Context {ext : Externals}.

(** X10 (when a write goes through): [putWithContextAndFlags] succeeds
    exactly when the trigger is one of the two write-eligible ones, the key
    has at most 1024 bytes, the context is writable, its contract exists and
    declares storage, and the item found for the key, if any, is not
    constant; [storageDelete] succeeds under the same conditions but for the
    key length, which it does not check. *)
Theorem storage_write_succeeds_iff ic stc key :
  (∀ value isConst v,
     (∃ s', putWithContextAndFlags stc key value isConst (mkSt ic v) = Ok (tt, s')) ↔
     writeEligible (trigger ic) ∧ len key ≤ MaxStorageKeyLen ∧ ReadOnly stc = false ∧
     checkStorageContext ic stc = inr tt ∧
     from_option IsConst false (lookupStorageItem ic (ScriptHash stc) key) = false) ∧
  (∀ kitem rest ctxs, Bytes kitem = Some key →
     (∃ r, run storageDelete ic (mkVM (storageArgs stc kitem rest) ctxs) = Ok r) ↔
     writeEligible (trigger ic) ∧ ReadOnly stc = false ∧
     checkStorageContext ic stc = inr tt ∧
     from_option IsConst false (lookupStorageItem ic (ScriptHash stc) key) = false).
Proof.
  split.
  - intros value isConst v. split.
    + intros [s' Hput].
      destruct (putWithContextAndFlags_Ok _ _ _ _ _ _ _ Hput) as (Ht & Hlen & Hro & Hc & _).
      repeat split; try done.
      revert Hput. unfold putWithContextAndFlags. unfold_M. simpl.
      rewrite writeEligible_guard by done.
      destruct (decide _); [done|]. rewrite Hro, Hc. simpl.
      destruct (lookupStorageItem ic (ScriptHash stc) key) as [si|]; simpl; [|done].
      by destruct (IsConst si).
    + intros (Ht & Hlen & Hro & Hc & Hk). eexists. by apply putWithContextAndFlags_succeeds.
  - intros kitem rest ctxs Hk. split.
    + intros [[ic' v'] Hdel].
      destruct (storageDelete_Ok _ _ _ _ _ _ _ _ Hk Hdel) as (Ht & Hro & Hc & _).
      repeat split; try done.
      revert Hdel. unfold storageDelete, storageArgs. unfold_M. simpl.
      rewrite writeEligible_guard by done. simpl. rewrite Hro, Hc. simpl. rewrite Hk. simpl.
      by destruct (from_option IsConst false _).
    + intros (Ht & Hro & Hc & Hconst). unfold storageDelete, storageArgs. unfold_M. simpl.
      rewrite writeEligible_guard by done. simpl. rewrite Hro, Hc. simpl. rewrite Hk. simpl.
      rewrite Hconst. by eexists.
Qed.

(** X11 (a read-only view of a staged write): after a successful put through
    a writable context, [storageContextAsReadOnly] yields the read-only
    context of the same contract; [storageGet] through it pushes the value
    put, while put and delete through it fail. *)
Theorem read_only_view_after_put ic v stc key value isConst s' :
  putWithContextAndFlags stc key value isConst (mkSt ic v) = Ok (tt, s') →
  let ro := mkStorageContext (ScriptHash stc) true in
  (∀ rest ctxs,
     run storageContextAsReadOnly (st_ic s')
       (mkVM (InteropItem (VStorageContext stc) :: rest) ctxs)
     = Ok (st_ic s', mkVM (InteropItem (VStorageContext ro) :: rest) ctxs)) ∧
  (∀ kitem rest ctxs, Bytes kitem = Some key →
     run storageGet (st_ic s') (mkVM (storageArgs ro kitem rest) ctxs)
     = Ok (st_ic s', mkVM (ByteArrayItem value :: rest) ctxs)) ∧
  (∀ value' isConst' v', isErr (putWithContextAndFlags ro key value' isConst' (mkSt (st_ic s') v'))) ∧
  (∀ kitem rest ctxs,
     isErr (run storageDelete (st_ic s') (mkVM (storageArgs ro kitem rest) ctxs))).
Proof.
  intros Hput ro. apply putWithContextAndFlags_Ok in Hput as (Ht & Hlen & Hro & Hc & ->).
  simpl. repeat apply conj.
  - intros rest ctxs. rewrite storageContextAsReadOnly_run, Hro. reflexivity.
  - intros kitem rest ctxs Hk. rewrite (storageGet_valid _ _ _ key) by done.
    unfold lookupStorageItem, getStorageItemFromStore, putStorageItemIntoStore. simpl.
    rewrite lookup_insert_eq. reflexivity.
  - intros value' isConst' v'. unfold putWithContextAndFlags. unfold_M. simpl.
    destruct (decide _); [done|]. destruct (decide _); done.
  - intros kitem rest ctxs. unfold storageDelete, storageArgs. unfold_M. simpl.
    destruct (decide _); done.
Qed.

(** X12 (writes are local to their key): after a successful put or delete
    of a key of one contract, [storageGet] of any other key, or of the same
    key of another contract, gives what it gave before. *)
Theorem storage_write_frame ic stc key stc2 kitem2 key2 rest ctxs :
  Bytes kitem2 = Some key2 →
  (ScriptHash stc2, key2) ≠ (ScriptHash stc, key) →
  (∀ value isConst v s',
     putWithContextAndFlags stc key value isConst (mkSt ic v) = Ok (tt, s') →
     run storageGet (st_ic s') (mkVM (storageArgs stc2 kitem2 rest) ctxs)
     = onContext (st_ic s') (run storageGet ic (mkVM (storageArgs stc2 kitem2 rest) ctxs))) ∧
  (∀ kitem rest' ctxs' ic' v', Bytes kitem = Some key →
     run storageDelete ic (mkVM (storageArgs stc kitem rest') ctxs') = Ok (ic', v') →
     run storageGet ic' (mkVM (storageArgs stc2 kitem2 rest) ctxs)
     = onContext ic' (run storageGet ic (mkVM (storageArgs stc2 kitem2 rest) ctxs))).
Proof.
  intros Hk2 Hne.
  assert (Hget : ∀ m', memStorage m' !! (ScriptHash stc2, key2)
                       = memStorage (mem ic) !! (ScriptHash stc2, key2) →
            run storageGet (withMem ic m') (mkVM (storageArgs stc2 kitem2 rest) ctxs)
            = onContext (withMem ic m')
                (run storageGet ic (mkVM (storageArgs stc2 kitem2 rest) ctxs))).
  { intros m' Hm'. unfold storageGet, storageArgs, checkStorageContext, lookupStorageItem,
      getStorageItemFromStore. unfold_M. simpl.
    destruct (GetContractState (bc ic) (ScriptHash stc2)) as [c|]; [|done].
    destruct (HasStorage c); [|done]. simpl. rewrite Hk2. simpl. rewrite Hm'.
    destruct (memStorage (mem ic) !! (ScriptHash stc2, key2)) as [[si|]|];
      [done|..]; by destruct (GetStorageItem _ _ _). }
  split.
  - intros value isConst v s' Hput.
    apply putWithContextAndFlags_Ok in Hput as (_ & _ & _ & _ & ->). simpl.
    apply Hget. simpl. by rewrite lookup_insert_ne.
  - intros kitem rest' ctxs' ic' v' Hk Hdel.
    apply (storageDelete_Ok _ _ _ key) in Hdel as (_ & _ & _ & -> & _); [|done].
    apply Hget. simpl. by rewrite lookup_insert_ne.
Qed.

(** A successful put found no constant item under its key. *)
Lemma putWithContextAndFlags_Ok_const stc key value isConst ic v s' :
  putWithContextAndFlags stc key value isConst (mkSt ic v) = Ok (tt, s') →
  from_option IsConst false (lookupStorageItem ic (ScriptHash stc) key) = false.
Proof.
  unfold putWithContextAndFlags. unfold_M. simpl.
  destruct (decide _); [discriminate|]. destruct (decide _); [discriminate|].
  destruct (ReadOnly stc); [discriminate|].
  destruct (checkStorageContext ic stc) as [?|[]]; [discriminate|]. simpl.
  destruct (lookupStorageItem ic (ScriptHash stc) key) as [si|]; simpl; [|done].
  by destruct (IsConst si).
Qed.

(** What a successful storage handler does to the interop context: nothing,
    or it stages the put or the tombstone of an item that was not
    constant. *)
Lemma storageHandler_Ok o ic v ic' v' :
  run (storageHandler o) ic v = Ok (ic', v') →
  ic' = ic ∨
  ∃ h k e, from_option IsConst false (lookupStorageItem ic h k) = false ∧
    ic' = withMem ic (mkStore (<[(h, k) := e]> (memStorage (mem ic))) (memContracts (mem ic))).
Proof.
  destruct o; simpl.
  - (* get *)
    unfold storageGet, asStorageContext. unfold_M. intros H. left. revert H. simpl.
    destruct (estack v) as [|[?|?|?|[?|?|?|?|c|?]] l]; simpl; try discriminate.
    destruct (checkStorageContext ic c) as [?|[]]; simpl; try discriminate.
    destruct l as [|x l]; simpl; try discriminate.
    destruct (Bytes x) as [key|]; simpl; try discriminate.
    destruct (lookupStorageItem ic (ScriptHash c) key); simpl; intros [= <- <-]; by destruct ic.
  - (* put *)
    unfold storagePut, storagePutInternal, asStorageContext, run.
    unfold PopBytes, PopInt64, Pop, orPanic, mbind, M_bind, mret, M_ret, fail. simpl.
    destruct (estack v) as [|[?|?|?|[?|?|?|?|c|?]] l]; simpl; try discriminate.
    destruct l as [|x l]; simpl; try discriminate.
    destruct (Bytes x) as [key|]; simpl; try discriminate.
    destruct l as [|y l]; simpl; try discriminate.
    destruct (Bytes y) as [value|]; simpl; try discriminate.
    destruct (putWithContextAndFlags c key value _ _) as [[[] s']| |] eqn:Hput; try discriminate.
    intros [= <- <-]. right.
    pose proof (putWithContextAndFlags_Ok_const _ _ _ _ _ _ _ Hput) as Hconst.
    apply putWithContextAndFlags_Ok in Hput as (_ & _ & _ & _ & ->).
    exists (ScriptHash c), key, (Present (mkStorageItem value (bool_decide (0 = 1)))).
    split; [done|]. reflexivity.
  - (* putEx *)
    unfold storagePutEx, storagePutInternal, asStorageContext, run.
    unfold PopBytes, PopInt64, Pop, orPanic, mbind, M_bind, mret, M_ret, fail. simpl.
    destruct (estack v) as [|[?|?|?|[?|?|?|?|c|?]] l]; simpl; try discriminate.
    destruct l as [|x l]; simpl; try discriminate.
    destruct (Bytes x) as [key|]; simpl; try discriminate.
    destruct l as [|y l]; simpl; try discriminate.
    destruct (Bytes y) as [value|]; simpl; try discriminate.
    destruct l as [|z l]; simpl; try discriminate.
    destruct (BigInt z) as [flag|]; simpl; try discriminate.
    destruct (putWithContextAndFlags c key value _ _) as [[[] s']| |] eqn:Hput; try discriminate.
    intros [= <- <-]. right.
    pose proof (putWithContextAndFlags_Ok_const _ _ _ _ _ _ _ Hput) as Hconst.
    apply putWithContextAndFlags_Ok in Hput as (_ & _ & _ & _ & ->).
    exists (ScriptHash c), key, (Present (mkStorageItem value (bool_decide (Int64 flag = 1)))).
    split; [done|]. reflexivity.
  - (* delete *)
    unfold storageDelete, asStorageContext. unfold_M. simpl.
    destruct (decide _); [discriminate|]. simpl.
    destruct (estack v) as [|[?|?|?|[?|?|?|?|c|?]] l]; simpl; try discriminate.
    destruct (ReadOnly c); [discriminate|].
    destruct (checkStorageContext ic c) as [?|[]]; simpl; try discriminate.
    destruct l as [|x l]; simpl; try discriminate.
    destruct (Bytes x) as [key|]; simpl; try discriminate.
    destruct (from_option IsConst false _) eqn:Hconst; [discriminate|]. simpl.
    intros [= <- <-]. right. exists (ScriptHash c), key, Tombstone. split; [done|]. reflexivity.
  - unfold storageGetContext, getContextScriptHash. unfold_M. simpl.
    destruct (istack v !! 0%nat); simpl; [|discriminate]. intros [= <- <-]. left. by destruct ic.
  - unfold storageGetReadOnlyContext, getContextScriptHash. unfold_M. simpl.
    destruct (istack v !! 0%nat); simpl; [|discriminate]. intros [= <- <-]. left. by destruct ic.
  - unfold storageContextAsReadOnly, asStorageContext. unfold_M. simpl.
    destruct (estack v) as [|[?|?|?|[?|?|?|?|c|?]] l]; simpl; try discriminate.
    intros [= <- <-]. left. by destruct ic.
Qed.

(** No run of storage handlers touches the ledger or the trigger, or what
    the two-tier lookup finds under a key whose item is constant. *)
Lemma runStorageOps_keeps_const ops : ∀ ic ic2 h k si,
  runStorageOps ops ic = Some ic2 →
  lookupStorageItem ic h k = Some si → IsConst si = true →
  bc ic2 = bc ic ∧ trigger ic2 = trigger ic ∧ lookupStorageItem ic2 h k = Some si.
Proof.
  induction ops as [|[o v] ops IH]; intros ic ic2 h k si Hrun Hl Hconst; simpl in Hrun.
  - by injection Hrun as <-.
  - destruct (run (storageHandler o) ic v) as [[ic1 v1]| |] eqn:Hstep; try discriminate.
    apply storageHandler_Ok in Hstep as [->|(h' & k' & e & Hnc & ->)]; [by eapply IH|].
    assert (Hne : (h', k') ≠ (h, k)).
    { intros [= -> ->]. rewrite Hl in Hnc. simpl in Hnc. congruence. }
    destruct (IH _ _ h k si Hrun) as (Hb & Ht & Hl2); [|done|by repeat split].
    revert Hl. unfold lookupStorageItem, getStorageItemFromStore. simpl.
    by rewrite lookup_insert_ne.
Qed.

(** X13 (a constant put seals the key against the storage handlers): after
    a successful put with the constant flag and any further run of storage
    handlers in the same execution ([storageGet], [storagePut],
    [storagePutEx], [storageDelete], [storageGetContext],
    [storageGetReadOnlyContext], [storageContextAsReadOnly], on any stacks),
    the ledger is as before, [storageGet] still pushes the value, a put of
    the key through that context fails with "storage item exists and is
    read-only" and a delete with "storage item is constant".
    [contractDestroy] is not among these handlers: it stages its tombstones
    without looking at the flag. *)
Theorem const_put_seals_key ic v stc key value s' ops ic2 :
  putWithContextAndFlags stc key value true (mkSt ic v) = Ok (tt, s') →
  runStorageOps ops (st_ic s') = Some ic2 →
  bc ic2 = bc ic ∧
  (∀ kitem rest ctxs, Bytes kitem = Some key →
     run storageGet ic2 (mkVM (storageArgs stc kitem rest) ctxs)
     = Ok (ic2, mkVM (ByteArrayItem value :: rest) ctxs)) ∧
  (∀ value' isConst' v',
     putWithContextAndFlags stc key value' isConst' (mkSt ic2 v')
     = Err (errorsNew "storage item exists and is read-only")) ∧
  (∀ kitem rest ctxs, Bytes kitem = Some key →
     run storageDelete ic2 (mkVM (storageArgs stc kitem rest) ctxs)
     = Err (errorsNew "storage item is constant")).
Proof.
  intros Hput Hops. apply putWithContextAndFlags_Ok in Hput as (Ht & Hlen & Hro & Hc & ->).
  simpl in Hops.
  destruct (runStorageOps_keeps_const ops _ ic2 (ScriptHash stc) key (mkStorageItem value true) Hops)
    as (Hbc & Htr & Hl); [|done|].
  { unfold lookupStorageItem, getStorageItemFromStore, putStorageItemIntoStore. simpl.
    by rewrite lookup_insert_eq. }
  simpl in Hbc, Htr.
  assert (Hc2 : checkStorageContext ic2 stc = inr tt).
  { revert Hc. unfold checkStorageContext. by rewrite Hbc. }
  assert (Ht2 : writeEligible (trigger ic2)) by (by rewrite Htr).
  split; [done|]. split; [|split].
  - intros kitem rest ctxs Hk. rewrite (storageGet_valid _ _ _ key) by done. by rewrite Hl.
  - intros value' isConst' v'. unfold putWithContextAndFlags. unfold_M. simpl.
    rewrite writeEligible_guard by done.
    destruct (decide (Z.of_nat (length key) > MaxStorageKeyLen)); [unfold len in Hlen; lia|].
    rewrite Hro, Hc2. simpl. rewrite Hl. reflexivity.
  - intros kitem rest ctxs Hk. unfold storageDelete, storageArgs. unfold_M. simpl.
    rewrite writeEligible_guard by done. simpl. rewrite Hro, Hc2. simpl.
    rewrite Hk. simpl. rewrite Hl. reflexivity.
Qed.

(** X14 (no storage without a contract that declares it): when the ledger
    has no contract under the context's script hash, or one that does not
    declare storage, [storageGet] returns the check's error before it pops
    the key, under any trigger and for a read-only context too, and put and
    delete fail as well. *)
Theorem storage_requires_contract_with_storage ic stc :
  match GetContractState (bc ic) (ScriptHash stc) with
  | Some c => HasStorage c = false
  | None => True
  end →
  (∀ rest ctxs,
     run storageGet ic (mkVM (InteropItem (VStorageContext stc) :: rest) ctxs)
     = Err (match GetContractState (bc ic) (ScriptHash stc) with
            | Some _ => errorsNew "contract can't have storage"
            | None => errorsNew "no contract found"
            end)) ∧
  (∀ key value isConst v, isErr (putWithContextAndFlags stc key value isConst (mkSt ic v))) ∧
  (∀ rest ctxs,
     isErr (run storageDelete ic (mkVM (InteropItem (VStorageContext stc) :: rest) ctxs))).
Proof.
  intros Hc.
  assert (Hchk : checkStorageContext ic stc
                 = inl (match GetContractState (bc ic) (ScriptHash stc) with
                        | Some _ => errorsNew "contract can't have storage"
                        | None => errorsNew "no contract found"
                        end)).
  { unfold checkStorageContext. destruct (GetContractState _ _); [by rewrite Hc|done]. }
  repeat apply conj.
  - intros rest ctxs. unfold storageGet. unfold_M. simpl. by rewrite Hchk.
  - intros key value isConst v. unfold putWithContextAndFlags. unfold_M. simpl.
    destruct (decide _); [done|]. destruct (decide _); [done|].
    destruct (ReadOnly stc); [done|]. by rewrite Hchk.
  - intros rest ctxs. unfold storageDelete. unfold_M. simpl.
    destruct (decide _); [done|]. simpl. destruct (ReadOnly stc); [done|]. by rewrite Hchk.
Qed.

(** X15 (destroy is local and needs the application trigger): under any
    trigger other than [0x10], also the [0x11] under which storage writes
    pass, [contractDestroy] fails.  Under [0x10] in a running context it
    succeeds, leaves the stacks alone, stages nothing when the ledger has no
    contract for the executing script, and never touches what the overlay
    stages for other contracts. *)
Theorem contractDestroy_local ic vm :
  (trigger ic ≠ 0x10 →
     contractDestroy (mkSt ic vm)
     = Err (errorsNew "can't destroy contract when not triggered by application")) ∧
  (∀ prog, trigger ic = 0x10 → istack vm !! 0%nat = Some prog →
     ∃ m', contractDestroy (mkSt ic vm) = Ok (tt, mkSt (withMem ic m') vm) ∧
       (GetContractState (bc ic) (Hash160 prog) = None → m' = mem ic) ∧
       ∀ h', h' ≠ Hash160 prog →
         memContracts m' !! h' = memContracts (mem ic) !! h' ∧
         ∀ k, memStorage m' !! (h', k) = memStorage (mem ic) !! (h', k)).
Proof.
  split.
  - intros Ht. unfold contractDestroy. unfold_M. simpl. by destruct (decide _).
  - intros prog Ht Hp. destruct ic as [l m t x b]. simpl in *. subst t.
    unfold contractDestroy, getContextScriptHash. unfold_M. simpl.
    destruct (decide (16 ≠ 16)) as [Hne|_]; [done|]. simpl. rewrite Hp.
    destruct (GetContractState l (Hash160 prog)) as [cs|] eqn:Hcs.
    + destruct (HasStorage cs).
      * eexists. split; [reflexivity|]. split; [done|]. intros h' Hh'.
        destruct (destroy_fold_spec (deleteContractStateInStore m (Hash160 prog)) (Hash160 prog)
                    (GetStorageItems l (Hash160 prog))) as (Hc & _ & Hout).
        simpl in Hc, Hout. split.
        -- rewrite Hc. by rewrite lookup_insert_ne.
        -- intros k. rewrite Hout; [done|]. by intros [? _].
      * eexists. split; [reflexivity|]. split; [done|]. intros h' Hh'. simpl.
        split; [by rewrite lookup_insert_ne|done].
    + exists m. split; [reflexivity|]. by split.
Qed.

End StorageProperties.

Section NeoProperties.

Context {ext : Externals}.

(** X16 (which contract specs are accepted): on a stack holding the nine
    arguments, [createContractStateFromVM] succeeds exactly under the
    application trigger with a script of at most 1 MiB, at most 252
    parameters, name, version, author and email of at most 252 bytes and a
    description of at most 65536 bytes. *)
Theorem contract_spec_accepted_iff ic c rest ctxs :
  (∃ r, createContractStateFromVM (mkSt ic (mkVM (contractArgs c rest) ctxs)) = Ok r) ↔
  trigger ic = Application ∧
  len (Script c) ≤ 1024 * 1024 ∧ len (ParamList c) ≤ 252 ∧
  len (Name c) ≤ 252 ∧ len (CodeVersion c) ≤ 252 ∧ len (Author c) ≤ 252 ∧
  len (Email c) ≤ 252 ∧ len (Description c) ≤ 65536.
Proof.
  split.
  - intros [r Hr]. revert Hr. unfold createContractStateFromVM, contractArgs. unfold_M. simpl.
    unfold MaxContractScriptSize, MaxContractParametersNum, MaxContractStringLen,
      MaxContractDescriptionLen.
    destruct (decide (trigger ic ≠ Application)) as [|Ht]; [done|]. simpl.
    repeat (destruct (decide _); [done|]; simpl). intros _.
    split; [by destruct (decide (trigger ic = Application))|]. lia.
  - intros (Ht & ? & ? & ? & ? & ? & ? & ?). eexists.
    apply createContractStateFromVM_accepts; try done;
      unfold MaxContractScriptSize, MaxContractParametersNum, MaxContractStringLen,
        MaxContractDescriptionLen; lia.
Qed.

(** X17 (create touches one contract record): a successful [contractCreate]
    pops its arguments and pushes one handle, leaves the staged overlay, the
    storage items, the assets and the chain data as they were, and changes no
    contract other than the one under the new script's hash. *)
Theorem contractCreate_frame ic v newc s1 ic' v' :
  createContractStateFromVM (mkSt ic v) = Ok (newc, s1) →
  run contractCreate ic v = Ok (ic', v') →
  (∃ c, v' = pushContract c (st_vm s1)) ∧
  mem ic' = mem ic ∧ storageItems (bc ic') = storageItems (bc ic) ∧
  assets (bc ic') = assets (bc ic) ∧ blocks (bc ic') = blocks (bc ic) ∧
  headers (bc ic') = headers (bc ic) ∧ transactions (bc ic') = transactions (bc ic) ∧
  blockHeight (bc ic') = blockHeight (bc ic) ∧
  ∀ h', h' ≠ ContractScriptHash newc →
    GetContractState (bc ic') h' = GetContractState (bc ic) h'.
Proof.
  intros Hc Hrun. rewrite (contractCreate_run _ _ _ _ Hc) in Hrun.
  destruct (GetContractState (bc ic) (ContractScriptHash newc)) as [c|];
    injection Hrun as <- <-.
  - repeat split; try done. by exists c.
  - repeat split; try done; [by exists newc|].
    intros h' Hh'. unfold GetContractState. simpl. by rewrite lookup_insert_ne.
Qed.

(** X18 (a created contract is found by its hash): after a successful
    [contractCreate] whose script hash has 20 bytes, [bcGetContract] of that
    hash pushes the very contract [contractCreate] pushed, and
    [contractGetScript] of the pushed handle gives, for a newly stored
    contract, the script that was passed in. *)
Theorem contractCreate_then_bcGetContract ic v newc s1 ic' v' :
  createContractStateFromVM (mkSt ic v) = Ok (newc, s1) →
  length (ContractScriptHash newc) = 20%nat →
  run contractCreate ic v = Ok (ic', v') →
  ∃ c, v' = pushContract c (st_vm s1) ∧
    (∀ rest ctxs,
       run bcGetContract ic' (mkVM (ByteArrayItem (ContractScriptHash newc) :: rest) ctxs)
       = Ok (ic', mkVM (InteropItem (VContract c) :: rest) ctxs)) ∧
    (GetContractState (bc ic) (ContractScriptHash newc) = None →
       run contractGetScript ic' v'
       = Ok (ic', mkVM (ByteArrayItem (Script newc) :: estack (st_vm s1)) (istack (st_vm s1)))).
Proof.
  intros Hc Hlen Hrun. rewrite (contractCreate_run _ _ _ _ Hc) in Hrun.
  assert (Hget : ∀ ic2 c rest ctxs, GetContractState (bc ic2) (ContractScriptHash newc) = Some c →
            run bcGetContract ic2 (mkVM (ByteArrayItem (ContractScriptHash newc) :: rest) ctxs)
            = Ok (ic2, mkVM (InteropItem (VContract c) :: rest) ctxs)).
  { intros ic2 c rest ctxs Hg. unfold bcGetContract, Uint160DecodeBytes. unfold_M. simpl.
    rewrite Hlen. simpl. rewrite Hg. by destruct ic2. }
  destruct (GetContractState (bc ic) (ContractScriptHash newc)) as [c|] eqn:He;
    injection Hrun as <- <-.
  - exists c. split; [done|]. split; [|done]. intros. by apply Hget.
  - exists newc. split; [done|]. split.
    + intros. apply Hget. unfold GetContractState. simpl. apply lookup_insert_eq.
    + intros _. by destruct ic.
Qed.

(** [assetCreate] on arguments that pass every check. *)
Lemma assetCreate_run ic t atype name amount precision ownerB owner adminB issuerB rest ctxs :
  trigger ic = Application → tx ic = Some t →
  let ty := toByte (Int64 atype) in
  let amt := Int64 amount in
  let prec := toByte (Int64 precision) in
  ty = Currency ∨ ty = Share ∨ ty = Invoice ∨ ty = Token →
  len name ≤ MaxAssetNameLen →
  amt ≠ 0 → - Satoshi ≤ amt → (ty = Invoice → amt = - Satoshi) →
  prec ≤ MaxAssetPrecision → (ty = Share → prec = 0) →
  amt = - Satoshi ∨ (10 ^ (8 - prec) | amt) →
  NewPublicKeyFromBytes ownerB = inr owner → IsInfinity owner = false →
  checkKeyedWitness ic owner = inr true →
  length adminB = 20%nat → length issuerB = 20%nat →
  let asset := newAsset ic t atype name amount precision owner adminB issuerB in
  run assetCreate ic (mkVM (assetStack atype name amount precision ownerB adminB issuerB rest) ctxs)
  = Ok (withBC ic (PutAssetState (bc ic) asset), mkVM (InteropItem (VAsset asset) :: rest) ctxs).
Proof.
  intros Ht Htx ty amt prec Hty Hname H0 Hneg Hinv Hprec Hshare Hdiv Hkey Hinf Hwit Hadm Hiss.
  assert (Hp : 0 ≤ prec < 256) by (apply Z.mod_pos_bound; lia).
  unfold MaxAssetNameLen, MaxAssetPrecision, Satoshi, len in *.
  assert (Hrem : Z.rem amt (Pow10 (8 - prec)) ≠ 0 → amt = - (1)).
  { intros Hr. destruct Hdiv as [|Hd]; [done|]. destruct Hr. unfold Pow10.
    apply Z.rem_divide; [|done].
    assert (0 < 10 ^ (8 - prec)) by (apply Z.pow_pos_nonneg; lia). lia. }
  unfold assetCreate, assetStack, assetArgs, newAsset, Uint160DecodeBytes. unfold_M. simpl.
  fold ty amt prec. unfold MaxAssetNameLen, MaxAssetPrecision, Satoshi, len.
  rewrite Ht. destruct (decide (Application ≠ Application)); [done|]. simpl.
  fold ty. rewrite (bool_decide_eq_true_2 _ Hty). simpl.
  repeat (match goal with
          | |- context [decide ?P] => destruct (decide P) as [?|?]; [exfalso; tauto || lia|]
          end; simpl; fold ty amt prec).
  rewrite Hkey, Hinf, Hwit. simpl.
  repeat (match goal with
          | |- context [decide ?P] => destruct (decide P) as [?|?]; [|done]
          end; simpl).
  rewrite Htx. reflexivity.
Qed.

(** X19 (what a successful creation stores): on arguments that pass every
    check, under the application trigger with the owner's witness,
    [assetCreate] pushes the new asset and stores it under the hash of the
    transaction; the ledger then answers [GetAssetState] of that hash with
    the asset, whose expiration is the current height plus 2,000,001 as a
    32-bit sum, and nothing but the ledger's assets has changed. *)
Theorem assetCreate_stores_asset ic t atype name amount precision ownerB owner adminB issuerB
    rest ctxs :
  trigger ic = Application → tx ic = Some t →
  let ty := toByte (Int64 atype) in
  let amt := Int64 amount in
  let prec := toByte (Int64 precision) in
  ty = Currency ∨ ty = Share ∨ ty = Invoice ∨ ty = Token →
  len name ≤ MaxAssetNameLen →
  amt ≠ 0 → - Satoshi ≤ amt → (ty = Invoice → amt = - Satoshi) →
  prec ≤ MaxAssetPrecision → (ty = Share → prec = 0) →
  amt = - Satoshi ∨ (10 ^ (8 - prec) | amt) →
  NewPublicKeyFromBytes ownerB = inr owner → IsInfinity owner = false →
  checkKeyedWitness ic owner = inr true →
  length adminB = 20%nat → length issuerB = 20%nat →
  ∃ ic' asset,
    run assetCreate ic
      (mkVM (assetStack atype name amount precision ownerB adminB issuerB rest) ctxs)
    = Ok (ic', mkVM (InteropItem (VAsset asset) :: rest) ctxs) ∧
    GetAssetState (bc ic') (txHash t) = Some asset ∧
    ID asset = txHash t ∧ AssetType asset = ty ∧ AssetName asset = name ∧
    Amount asset = amt ∧ Precision asset = prec ∧ Owner asset = owner ∧
    Admin asset = adminB ∧ Issuer asset = issuerB ∧
    Expiration asset = (blockHeight (bc ic) + 2000001) mod 2 ^ 32 ∧
    mem ic' = mem ic ∧ contracts (bc ic') = contracts (bc ic) ∧
    storageItems (bc ic') = storageItems (bc ic) ∧
    ∀ id, id ≠ txHash t → GetAssetState (bc ic') id = GetAssetState (bc ic) id.
Proof.
  intros Ht Htx ty amt prec Hty Hname H0 Hneg Hinv Hprec Hshare Hdiv Hkey Hinf Hwit Hadm Hiss.
  eexists _, _. split; [by apply assetCreate_run|].
  unfold GetAssetState, newAsset. simpl. rewrite lookup_insert_eq.
  repeat split; try done. intros id Hid. by rewrite lookup_insert_ne.
Qed.

(** What a successful [assetCreate] has checked. *)
Lemma assetCreate_Ok_inv ic atype name amount precision ownerB adminB issuerB rest ctxs r :
  run assetCreate ic (mkVM (assetStack atype name amount precision ownerB adminB issuerB rest) ctxs)
    = Ok r →
  let ty := toByte (Int64 atype) in
  let amt := Int64 amount in
  let prec := toByte (Int64 precision) in
  trigger ic = Application ∧ (∃ t, tx ic = Some t) ∧
  (ty = Currency ∨ ty = Share ∨ ty = Invoice ∨ ty = Token) ∧
  len name ≤ MaxAssetNameLen ∧
  amt ≠ 0 ∧ - Satoshi ≤ amt ∧ (ty = Invoice → amt = - Satoshi) ∧
  prec ≤ MaxAssetPrecision ∧ (ty = Share → prec = 0) ∧
  (amt = - Satoshi ∨ (10 ^ (8 - prec) | amt)) ∧
  (∃ owner, NewPublicKeyFromBytes ownerB = inr owner ∧ IsInfinity owner = false ∧
            checkKeyedWitness ic owner = inr true) ∧
  length adminB = 20%nat ∧ length issuerB = 20%nat.
Proof.
  intros Hrun ty amt prec. revert Hrun.
  assert (Hp : 0 ≤ prec < 256) by (apply Z.mod_pos_bound; lia).
  unfold assetCreate, assetStack, assetArgs, Uint160DecodeBytes. unfold_M. simpl.
  fold ty amt prec.
  destruct (decide (trigger ic ≠ Application)) as [|Ht]; [done|]. simpl. fold ty.
  destruct (bool_decide _) eqn:Hty; [|done]. apply bool_decide_eq_true in Hty. simpl.
  destruct (decide (len name > MaxAssetNameLen)); [done|]. simpl. fold amt.
  destruct (decide (amt = 0)); [done|]. destruct (decide (amt < - Satoshi)); [done|].
  destruct (decide (ty = Invoice ∧ amt ≠ - Satoshi)) as [|Hinv]; [done|]. simpl. fold prec.
  destruct (decide (prec > MaxAssetPrecision)); [done|].
  destruct (decide (ty = Share ∧ prec ≠ 0)) as [|Hshare]; [done|].
  destruct (decide (amt ≠ - Satoshi ∧ _)) as [|Hrem]; [done|]. simpl.
  destruct (NewPublicKeyFromBytes ownerB) as [|owner] eqn:Hkey; [done|].
  destruct (IsInfinity owner) eqn:Hinf; [done|].
  destruct (checkKeyedWitness ic owner) as [|[]] eqn:Hwit; [done| |done]. simpl.
  destruct (decide (length adminB = 20%nat)); [|done]. simpl.
  destruct (decide (length issuerB = 20%nat)); [|done]. simpl.
  destruct (tx ic) as [t|] eqn:Htx; [|done]. intros _.
  unfold MaxAssetPrecision, Satoshi in *.
  assert (Hdiv : amt = -1 ∨ (10 ^ (8 - prec) | amt)).
  { destruct (decide (amt = -1)) as [|Hs]; [by left|right].
    destruct (decide (Z.rem amt (Pow10 (8 - prec)) = 0)) as [Hz|]; [|tauto].
    apply Z.rem_divide in Hz; [done|]. unfold Pow10.
    assert (0 < 10 ^ (8 - prec)) by (apply Z.pow_pos_nonneg; lia). lia. }
  assert (Htrig : trigger ic = Application)
    by (by destruct (decide (trigger ic = Application))).
  assert (Hi : ty = Invoice → amt = -1)
    by (intros ?; destruct (decide (amt = -1)); [done|tauto]).
  assert (Hs : ty = Share → prec = 0)
    by (intros ?; destruct (decide (prec = 0)); [done|tauto]).
  repeat apply conj; try done; try lia; by eauto.
Qed.

(** X20 (when an asset is created): on a stack holding its seven arguments,
    [assetCreate] succeeds exactly when the trigger is the application one,
    a transaction is being processed, the kind is one of the four asset
    kinds, the name has at most 1024 bytes, the amount is the sentinel or a
    positive multiple of [10 ^ (8 - precision)], an Invoice has the sentinel
    amount, the precision is at most 8 and 0 for a Share, the owner key
    decodes to a point other than infinity whose keyed witness check passes,
    and admin and issuer have 20 bytes.  No asset is created without the
    owner's witness. *)
Theorem assetCreate_succeeds_iff ic atype name amount precision ownerB adminB issuerB rest ctxs :
  let ty := toByte (Int64 atype) in
  let amt := Int64 amount in
  let prec := toByte (Int64 precision) in
  (∃ r, run assetCreate ic
          (mkVM (assetStack atype name amount precision ownerB adminB issuerB rest) ctxs) = Ok r) ↔
  trigger ic = Application ∧ (∃ t, tx ic = Some t) ∧
  (ty = Currency ∨ ty = Share ∨ ty = Invoice ∨ ty = Token) ∧
  len name ≤ MaxAssetNameLen ∧
  amt ≠ 0 ∧ - Satoshi ≤ amt ∧ (ty = Invoice → amt = - Satoshi) ∧
  prec ≤ MaxAssetPrecision ∧ (ty = Share → prec = 0) ∧
  (amt = - Satoshi ∨ (10 ^ (8 - prec) | amt)) ∧
  (∃ owner, NewPublicKeyFromBytes ownerB = inr owner ∧ IsInfinity owner = false ∧
            checkKeyedWitness ic owner = inr true) ∧
  length adminB = 20%nat ∧ length issuerB = 20%nat.
Proof.
  intros ty amt prec. split.
  - intros [r Hr]. by apply (assetCreate_Ok_inv _ _ _ _ _ _ _ _ _ _ _ Hr).
  - intros (Ht & [t Htx] & Hty & Hname & H0 & Hneg & Hinv & Hprec & Hshare & Hdiv &
            (owner & Hkey & Hinf & Hwit) & Hadm & Hiss).
    eexists. by eapply assetCreate_run.
Qed.

(** X21 (the created asset reads back): after a successful [assetCreate],
    the accessors applied to the pushed handle give the popped amount, the
    precision and the kind as narrowed to a byte, the transaction hash as
    the id, and the admin and issuer passed in; and [bcGetAsset] of a 32-byte
    transaction hash pushes that same asset. *)
Theorem created_asset_reads_back ic t atype name amount precision ownerB adminB issuerB rest
    ctxs ic' v' :
  tx ic = Some t →
  run assetCreate ic (mkVM (assetStack atype name amount precision ownerB adminB issuerB rest) ctxs)
    = Ok (ic', v') →
  let out x := Ok (ic', mkVM (x :: rest) ctxs) in
  run assetGetAmount ic' v' = out (BigIntegerItem (Int64 amount)) ∧
  run assetGetPrecision ic' v' = out (BigIntegerItem (toByte (Int64 precision))) ∧
  run assetGetAssetType ic' v' = out (BigIntegerItem (toByte (Int64 atype))) ∧
  run assetGetAssetID ic' v' = out (ByteArrayItem (txHash t)) ∧
  run assetGetAdmin ic' v' = out (ByteArrayItem adminB) ∧
  run assetGetIssuer ic' v' = out (ByteArrayItem issuerB) ∧
  (length (txHash t) = 32%nat →
     run (andThen bcGetAsset assetGetAssetID) ic' (mkVM (ByteArrayItem (txHash t) :: rest) ctxs)
     = out (ByteArrayItem (txHash t)) ∧
     ∃ asset, v' = mkVM (InteropItem (VAsset asset) :: rest) ctxs ∧
       run bcGetAsset ic' (mkVM (ByteArrayItem (txHash t) :: rest) ctxs) = Ok (ic', v')).
Proof.
  intros Htx Hrun out.
  destruct (assetCreate_Ok_inv _ _ _ _ _ _ _ _ _ _ _ Hrun)
    as (Ht & _ & Hty & Hname & H0 & Hneg & Hinv & Hprec & Hshare & Hdiv &
        (owner & Hkey & Hinf & Hwit) & Hadm & Hiss).
  rewrite (assetCreate_run ic t _ _ _ _ _ owner) in Hrun by done.
  injection Hrun as <- <-. subst out.
  repeat apply conj; try (by destruct ic).
  intros Hlen.
  assert (Hget : run bcGetAsset
                   (withBC ic (PutAssetState (bc ic)
                      (newAsset ic t atype name amount precision owner adminB issuerB)))
                   (mkVM (ByteArrayItem (txHash t) :: rest) ctxs)
                 = Ok (withBC ic (PutAssetState (bc ic)
                         (newAsset ic t atype name amount precision owner adminB issuerB)),
                       mkVM (InteropItem (VAsset
                         (newAsset ic t atype name amount precision owner adminB issuerB))
                         :: rest) ctxs)).
  { unfold bcGetAsset, Uint256DecodeBytesBE, GetAssetState. unfold_M. simpl.
    rewrite Hlen. simpl. rewrite lookup_insert_eq. by destruct ic. }
  split; [|by eexists].
  unfold andThen, bcGetAsset, assetGetAssetID, asAsset, Uint256DecodeBytesBE, GetAssetState.
  unfold_M. simpl. rewrite Hlen. simpl. rewrite lookup_insert_eq. by destruct ic.
Qed.

(** X22 (a missing asset is a fault): for 32 bytes under which the ledger
    holds no asset [bcGetAsset] returns "asset not found", and for bytes of
    another length the decoding error; it never pushes an empty value. *)
Theorem bcGetAsset_miss_is_an_error ic idb rest ctxs :
  (length idb = 32%nat → assets (bc ic) !! idb = None →
     run bcGetAsset ic (mkVM (ByteArrayItem idb :: rest) ctxs)
     = Err (errorsNew "asset not found")) ∧
  (length idb ≠ 32%nat →
     isErr (run bcGetAsset ic (mkVM (ByteArrayItem idb :: rest) ctxs))) ∧
  (∀ r, run bcGetAsset ic (mkVM (ByteArrayItem idb :: rest) ctxs) = Ok r →
        ∃ asset, assets (bc ic) !! idb = Some asset ∧
                 r = (ic, mkVM (InteropItem (VAsset asset) :: rest) ctxs)).
Proof.
  unfold bcGetAsset, Uint256DecodeBytesBE, GetAssetState. unfold_M. simpl.
  repeat apply conj.
  - intros Hlen Hmiss. destruct (decide _); [|done]. simpl. by rewrite Hmiss.
  - intros Hlen. by destruct (decide _).
  - intros r. destruct (decide _); [|done]. simpl.
    destruct (assets (bc ic) !! idb) as [asset|]; [|done].
    intros [= <-]. exists asset. by destruct ic.
Qed.

End NeoProperties.

Section RenewProperties.

Context {ext : Externals}.

(** X23 (when a renewal goes through, and on which asset): on a stack
    holding a value and the years, [assetRenew] succeeds exactly under the
    application trigger when the value is an asset handle whose id the
    ledger holds; a missing asset is the error "can't renew non-existent
    asset".  The outcome depends on the handle through its id alone: the
    asset acted on is the ledger's, not the handle's copy. *)
Theorem assetRenew_succeeds_iff ic x y rest ctxs :
  ((∃ r, run assetRenew ic (mkVM (x :: BigIntegerItem y :: rest) ctxs) = Ok r) ↔
   trigger ic = Application ∧
   ∃ a asset, x = InteropItem (VAsset a) ∧ GetAssetState (bc ic) (ID a) = Some asset) ∧
  (∀ a, trigger ic = Application → x = InteropItem (VAsset a) →
        GetAssetState (bc ic) (ID a) = None →
        run assetRenew ic (mkVM (x :: BigIntegerItem y :: rest) ctxs)
        = Err (errorsNew "can't renew non-existent asset")) ∧
  (∀ a1 a2, ID a1 = ID a2 →
     run assetRenew ic (mkVM (InteropItem (VAsset a1) :: BigIntegerItem y :: rest) ctxs)
     = run assetRenew ic (mkVM (InteropItem (VAsset a2) :: BigIntegerItem y :: rest) ctxs)).
Proof.
  split; [|split].
  - split.
    + intros [r Hr]. revert Hr. unfold assetRenew, asAsset. unfold_M. simpl.
      destruct (decide (trigger ic ≠ Application)) as [|Ht]; [done|].
      destruct x as [?|?|?|[]]; simpl; try done.
      destruct (GetAssetState (bc ic) (ID a)) as [asset|] eqn:Ha; [|done]. intros _.
      split; [by destruct (decide (trigger ic = Application))|]. by exists a, asset.
    + intros (Ht & a & asset & -> & Ha). eexists.
      by apply (assetRenew_run ic a (BigIntegerItem y) y asset).
  - intros a Ht -> Ha. unfold assetRenew, asAsset. unfold_M. simpl. rewrite Ht.
    destruct (decide _); [done|]. simpl. by rewrite Ha.
  - intros a1 a2 Hid. unfold assetRenew, asAsset. unfold_M. simpl.
    destruct (decide _); [done|]. simpl. by rewrite Hid.
Qed.

(** X24 (a renewal changes one expiration): a successful [assetRenew] of an
    asset the ledger holds under its own id leaves the overlay, the
    contracts, the storage items and every other asset as they were, and of
    the asset itself changes only the expiration. *)
Theorem assetRenew_frame ic a y asset rest ctxs :
  trigger ic = Application → GetAssetState (bc ic) (ID a) = Some asset → ID asset = ID a →
  ∃ ic' e asset',
    run assetRenew ic (mkVM (InteropItem (VAsset a) :: BigIntegerItem y :: rest) ctxs)
      = Ok (ic', mkVM (BigIntegerItem e :: rest) ctxs) ∧
    GetAssetState (bc ic') (ID a) = Some asset' ∧
    asset' = withExpiration asset (Expiration asset') ∧
    mem ic' = mem ic ∧ contracts (bc ic') = contracts (bc ic) ∧
    storageItems (bc ic') = storageItems (bc ic) ∧
    ∀ id, id ≠ ID a → GetAssetState (bc ic') id = GetAssetState (bc ic) id.
Proof.
  intros Ht Ha Hid. eexists _, _, _.
  split; [by apply (assetRenew_run ic a (BigIntegerItem y) y asset)|].
  unfold GetAssetState. simpl. rewrite Hid, lookup_insert_eq.
  repeat split; try done. intros id Hne. by rewrite lookup_insert_ne.
Qed.

(** The handler's clamp and raise, as minimum and maximum. *)
Lemma clamp_min x : (if decide (x > MaxUint32) then MaxUint32 else x) = Z.min x MaxUint32.
Proof. destruct (decide _); lia. Qed.

Lemma raise_max e h : (if decide (e < h) then h else e) = Z.max e h.
Proof. destruct (decide _); lia. Qed.

(** [assetRenew_run] with the result in closed form. *)
Lemma assetRenew_run_min ic a y asset rest ctxs :
  trigger ic = Application → GetAssetState (bc ic) (ID a) = Some asset →
  0 ≤ Expiration asset ≤ MaxUint32 →
  let e := Z.min (Z.max (Expiration asset) (toUint32 (blockHeight (bc ic) + 1))
                  + (y mod 256) * BlocksPerYear) MaxUint32 in
  run assetRenew ic (mkVM (InteropItem (VAsset a) :: BigIntegerItem y :: rest) ctxs)
  = Ok (withBC ic (PutAssetState (bc ic) (withExpiration asset e)),
        mkVM (BigIntegerItem e :: rest) ctxs).
Proof.
  intros Ht Ha Hexp e. rewrite (assetRenew_run ic a _ y asset) by done. cbv zeta.
  rewrite raise_max, clamp_min. fold e.
  assert (Hy : 0 ≤ y mod 256 < 256) by (apply Z.mod_pos_bound; lia).
  assert (Hh1 : 0 ≤ toUint32 (blockHeight (bc ic) + 1) < 2 ^ 32)
    by (apply Z.mod_pos_bound; lia).
  assert (He : toUint32 e = e).
  { unfold toUint32. apply Z.mod_small. unfold e, BlocksPerYear, MaxUint32 in *. lia. }
  by rewrite He.
Qed.

(** X25 (renewals add up): for an asset the ledger holds under its own id,
    with a 32-bit expiration, renewing for [y1] years and then for [y2]
    years pushes the expiration, and leaves the context, that one renewal
    for [y1 + y2] years does, as long as the sum stays below 256. *)
Theorem assetRenew_additive ic a asset y1 y2 rest ctxs :
  trigger ic = Application → GetAssetState (bc ic) (ID a) = Some asset → ID asset = ID a →
  0 ≤ Expiration asset ≤ MaxUint32 →
  0 ≤ y1 → 0 ≤ y2 → y1 + y2 < 256 →
  let stack y := mkVM (InteropItem (VAsset a) :: BigIntegerItem y :: rest) ctxs in
  ∃ ic1 e1 ic2 e2,
    run assetRenew ic (stack y1) = Ok (ic1, mkVM (BigIntegerItem e1 :: rest) ctxs) ∧
    run assetRenew ic1 (stack y2) = Ok (ic2, mkVM (BigIntegerItem e2 :: rest) ctxs) ∧
    run assetRenew ic (stack (y1 + y2)) = Ok (ic2, mkVM (BigIntegerItem e2 :: rest) ctxs).
Proof.
  intros Ht Ha Hid Hexp Hy1 Hy2 Hsum stack. subst stack.
  assert (Hh1 : 0 ≤ toUint32 (blockHeight (bc ic) + 1) < 2 ^ 32)
    by (apply Z.mod_pos_bound; lia).
  eexists _, _, _, _. split; [by apply assetRenew_run_min|].
  set (h1 := toUint32 (blockHeight (bc ic) + 1)) in *.
  set (e1 := Z.min (Z.max (Expiration asset) h1 + y1 `mod` 256 * BlocksPerYear) MaxUint32).
  assert (He1 : 0 ≤ e1 ≤ MaxUint32 ∧ h1 ≤ e1).
  { unfold e1, BlocksPerYear, MaxUint32 in *. rewrite (Z.mod_small y1) by lia. lia. }
  set (ic1 := withBC ic (PutAssetState (bc ic) (withExpiration asset e1))).
  assert (Ha1 : GetAssetState (bc ic1) (ID a) = Some (withExpiration asset e1)).
  { unfold GetAssetState. simpl. rewrite Hid. apply lookup_insert_eq. }
  rewrite (assetRenew_run_min ic1 a y2 (withExpiration asset e1)) by (done || apply He1).
  rewrite (assetRenew_run_min ic a (y1 + y2) asset) by done.
  change (blockHeight (bc ic1)) with (blockHeight (bc ic)). fold h1.
  change (Expiration (withExpiration asset e1)) with e1.
  assert (He : Z.min (Z.max e1 h1 + y2 `mod` 256 * BlocksPerYear) MaxUint32
               = Z.min (Z.max (Expiration asset) h1 + (y1 + y2) `mod` 256 * BlocksPerYear)
                   MaxUint32).
  { unfold e1, BlocksPerYear, MaxUint32 in *.
    rewrite (Z.mod_small y1), (Z.mod_small y2), (Z.mod_small (y1 + y2)) by lia. lia. }
  rewrite He. split; [|reflexivity]. f_equal. f_equal.
  unfold ic1, PutAssetState, withBC, withExpiration. simpl. by rewrite insert_insert_eq.
Qed.

(** X26 (a new asset can be renewed): after a successful [assetCreate] at a
    height whose sum with 2,000,001 fits 32 bits, [assetRenew] of the pushed
    handle for [y] years pushes the current height plus 2,000,001 plus
    [y mod 256] times 2,000,000, clamped to the 32-bit maximum. *)
Theorem created_asset_renews ic atype name amount precision ownerB adminB issuerB rest ctxs
    ic' handle y rest' ctxs' :
  run assetCreate ic (mkVM (assetStack atype name amount precision ownerB adminB issuerB rest) ctxs)
    = Ok (ic', mkVM (handle :: rest) ctxs) →
  0 ≤ blockHeight (bc ic) → blockHeight (bc ic) + 2000001 ≤ MaxUint32 →
  ∃ ic'',
    run assetRenew ic' (mkVM (handle :: BigIntegerItem y :: rest') ctxs')
    = Ok (ic'', mkVM (BigIntegerItem
                        (Z.min (blockHeight (bc ic) + 2000001 + (y mod 256) * 2000000) MaxUint32)
                      :: rest') ctxs').
Proof.
  intros Hrun Hh0 Hh.
  destruct (assetCreate_Ok_inv _ _ _ _ _ _ _ _ _ _ _ Hrun)
    as (Ht & [t Htx] & Hty & Hname & H0 & Hneg & Hinv & Hprec & Hshare & Hdiv &
        (owner & Hkey & Hinf & Hwit) & Hadm & Hiss).
  rewrite (assetCreate_run ic t _ _ _ _ _ owner) in Hrun by done.
  injection Hrun as <- <-.
  set (asset := newAsset ic t atype name amount precision owner adminB issuerB).
  assert (Ha : GetAssetState (bc (withBC ic (PutAssetState (bc ic) asset))) (ID asset)
               = Some asset).
  { unfold GetAssetState. simpl. apply lookup_insert_eq. }
  assert (Hexp : Expiration asset = blockHeight (bc ic) + 2000001).
  { unfold asset, newAsset, toUint32, DefaultAssetLifetime, BlocksPerYear, MaxUint32 in *.
    simpl. apply Z.mod_small. lia. }
  assert (Hh1 : toUint32 (blockHeight (bc ic) + 1) = blockHeight (bc ic) + 1).
  { unfold toUint32, MaxUint32 in *. apply Z.mod_small. lia. }
  eexists. rewrite (assetRenew_run_min _ asset y asset); [|done|done|unfold MaxUint32 in *; lia].
  change (blockHeight (bc (withBC ic (PutAssetState (bc ic) asset))))
    with (blockHeight (bc ic)).
  rewrite Hh1, Hexp. unfold BlocksPerYear.
  rewrite (Z.max_l (blockHeight (bc ic) + 2000001)) by lia. reflexivity.
Qed.

End RenewProperties.

(** ** The further properties on sample states *)

(** Index 0 of the sample chain and the hash of its header name one block. *)
Lemma lookup_by_index_and_by_hash_agree_witness :
  run (bcGetBlock (ext := sampleExternals)) chainIC (mkVM [BigIntegerItem 0] [])
  = run (bcGetBlock (ext := sampleExternals)) chainIC
      (mkVM [ByteArrayItem (reverse (GetHeaderHash chainLedger 0))] []).
Proof.
  refine (proj1 (lookup_by_index_and_by_hash_agree (ext := sampleExternals) chainIC 0 [] []
                   _ _ _)); vm_compute; try reflexivity; try lia; split; discriminate.
Defined.

(** A short element encoding -1 is a bad block index. *)
Lemma block_element_by_length_witness :
  getBlockHashFromElement (ext := sampleExternals) chainLedger (BigIntegerItem (-1)) chainState
  = Err (errorsNew "bad block index").
Proof.
  refine (proj1 (block_element_by_length (ext := sampleExternals) chainLedger
                   (BigIntegerItem (-1)) [Byte.x01] (-1) chainState eq_refl eq_refl) _ _).
  - simpl. lia.
  - left. reflexivity.
Defined.

(** Index 5 of a block of one transaction is out of range. *)
Lemma blockGetTransaction_bounds_witness :
  run (blockGetTransaction (ext := sampleExternals)) chainIC
    (mkVM [InteropItem (VBlock sampleBlock); BigIntegerItem 5] [])
  = Err (errorsNew "wrong transaction index").
Proof.
  refine (proj2 (proj2 (blockGetTransaction_bounds (ext := sampleExternals) chainIC sampleBlock
                          (BigIntegerItem 5) 5 [] [] eq_refl)) _).
  vm_compute. intros [_ H]. discriminate H.
Defined.

(** The transaction of the sample chain gives its hash back. *)
Lemma bcGetTransaction_then_txGetHash_witness :
  run (andThen (bcGetTransaction (ext := sampleExternals)) txGetHash) chainIC
    (mkVM [ByteArrayItem (replicate 32 Byte.x0b)] [])
  = Ok (chainIC, mkVM [ByteArrayItem (replicate 32 Byte.x0b)] []).
Proof.
  refine (proj1 (bcGetTransaction_then_txGetHash (ext := sampleExternals) chainIC
                   (replicate 32 Byte.x0b) sampleTx 0 [] [] _ _ _)); reflexivity.
Defined.

(** The header of the sample chain gives its hash back. *)
Lemma bcGetHeader_then_headerGetHash_witness :
  run (andThen (bcGetHeader (ext := sampleExternals)) (headerGetHash sampleHeaderHash)) chainIC
    (mkVM [ByteArrayItem (replicate 32 Byte.x0c)] [])
  = Ok (chainIC, mkVM [ByteArrayItem (replicate 32 Byte.x0c)] []).
Proof.
  refine (bcGetHeader_then_headerGetHash (ext := sampleExternals) sampleHeaderHash chainIC
            (replicate 32 Byte.x0c) sampleHeader [] [] _ _ _); reflexivity.
Defined.

(** A two-byte key is checked as the hash of its signature script. *)
Lemma runtimeCheckWitness_key_as_hash_witness :
  run (runtimeCheckWitness (ext := sampleExternals)) createIC
    (mkVM [ByteArrayItem [Byte.x02; Byte.x03]] [])
  = run (runtimeCheckWitness (ext := sampleExternals)) createIC
      (mkVM [ByteArrayItem (@Hash160 sampleExternals [Byte.x21; Byte.xac])] []).
Proof.
  refine (runtimeCheckWitness_key_as_hash (ext := sampleExternals) createIC
            [Byte.x02; Byte.x03] (Some (1, 2)) [Byte.x21; Byte.xac] [] [] _ _ _ _);
    vm_compute; try reflexivity; discriminate.
Defined.

(** The staged [0x02] read through the read-only context. *)
Lemma read_only_view_after_put_witness :
  run (storageGet (ext := sampleExternals)) putIC
    (mkVM (storageArgs readOnlyCtx (ByteArrayItem sampleKey) []) [])
  = Ok (putIC, mkVM [ByteArrayItem [Byte.x02]] []).
Proof.
  refine (proj1 (proj2
    (read_only_view_after_put (ext := sampleExternals) (sampleIC sampleLedger) (mkVM [] [])
       writableCtx sampleKey [Byte.x02] false (mkSt putIC (mkVM [] [])) _))
    (ByteArrayItem sampleKey) [] [] _); reflexivity.
Defined.

(** The put of the sample key leaves another key's reading alone. *)
Lemma storage_write_frame_witness :
  run (storageGet (ext := sampleExternals)) putIC
    (mkVM (storageArgs writableCtx (ByteArrayItem otherKey) []) [])
  = onContext putIC
      (run (storageGet (ext := sampleExternals)) (sampleIC sampleLedger)
         (mkVM (storageArgs writableCtx (ByteArrayItem otherKey) []) [])).
Proof.
  refine (proj1 (storage_write_frame (ext := sampleExternals) (sampleIC sampleLedger)
                   writableCtx sampleKey writableCtx (ByteArrayItem otherKey) otherKey [] []
                   eq_refl _)
            [Byte.x02] false (mkVM [] []) (mkSt putIC (mkVM [] [])) eq_refl).
  vm_compute. discriminate.
Defined.

(** After the constant put of the sample key, a put and a delete of the
    other key go through, and a put of [0x03] under the sample key is still
    refused. *)
Lemma const_put_seals_key_witness :
  runStorageOps (ext := sampleExternals) laterOps sealedIC = Some laterIC ∧
  putWithContextAndFlags (ext := sampleExternals) writableCtx sampleKey [Byte.x03] false
    (mkSt laterIC (mkVM [] []))
  = Err (errorsNew "storage item exists and is read-only").
Proof.
  split; [reflexivity|].
  exact (proj1 (proj2 (proj2
    (const_put_seals_key (ext := sampleExternals) (sampleIC sampleLedger) (mkVM [] [])
       writableCtx sampleKey [Byte.x02] (mkSt sealedIC (mkVM [] [])) laterOps laterIC
       eq_refl eq_refl)))
    [Byte.x03] false (mkVM [] [])).
Defined.

(** On an empty ledger no context is valid. *)
Lemma storage_requires_contract_with_storage_witness :
  run (storageGet (ext := sampleExternals)) (sampleIC emptyLedger)
    (mkVM [InteropItem (VStorageContext writableCtx)] [])
  = Err (errorsNew "no contract found").
Proof.
  exact (proj1 (storage_requires_contract_with_storage (ext := sampleExternals)
                  (sampleIC emptyLedger) writableCtx I) [] []).
Defined.

(** Creating the new contract leaves the sample contract's record alone. *)
Lemma contractCreate_frame_witness :
  GetContractState (bc createdContractIC) sampleHash
  = GetContractState (bc (sampleIC sampleLedger)) sampleHash.
Proof.
  refine (proj2 (proj2 (proj2 (proj2 (proj2 (proj2 (proj2 (proj2
    (contractCreate_frame (ext := sampleExternals) (sampleIC sampleLedger) migrateVM newContract
       (mkSt (sampleIC sampleLedger) (mkVM [] [sampleScript]))
       createdContractIC (pushContract newContract (mkVM [] [sampleScript]))
       eq_refl eq_refl)))))))) sampleHash _).
  vm_compute. discriminate.
Defined.

(** The new contract is found under its hash once created. *)
Lemma contractCreate_then_bcGetContract_witness :
  run (bcGetContract (ext := sampleExternals)) createdContractIC
    (mkVM [ByteArrayItem newHash] [])
  = Ok (createdContractIC, mkVM [InteropItem (VContract newContract)] []).
Proof.
  destruct (contractCreate_then_bcGetContract (ext := sampleExternals) (sampleIC sampleLedger)
              migrateVM newContract (mkSt (sampleIC sampleLedger) (mkVM [] [sampleScript]))
              createdContractIC (pushContract newContract (mkVM [] [sampleScript]))
              eq_refl eq_refl eq_refl) as (c & Hv & Hget & _).
  injection Hv as <-. exact (Hget [] []).
Defined.

(** The sample creation stores its asset under the transaction hash. *)
Lemma assetCreate_stores_asset_witness :
  ∃ ic' asset,
    run (assetCreate (ext := sampleExternals)) createIC createVM
      = Ok (ic', mkVM [InteropItem (VAsset asset)] []) ∧
    GetAssetState (bc ic') (txHash sampleTx) = Some asset.
Proof.
  destruct (assetCreate_stores_asset (ext := sampleExternals) createIC sampleTx 0x60 [] 200000 3
              [Byte.x02; Byte.x03] (Some (1, 2)) (replicate 20 Byte.x00) (replicate 20 Byte.x01)
              [] []) as (ic' & asset & Hrun & Hget & _);
    [first [ reflexivity
           | right; right; right; reflexivity
           | right; exists 2; reflexivity
           | vm_compute; first [discriminate | intros H; discriminate H] ] .. |].
  exists ic', asset. split; [exact Hrun | exact Hget].
Defined.

(** The amount of the sample asset read from its handle. *)
Lemma created_asset_reads_back_witness :
  run assetGetAmount createdIC
    (mkVM [InteropItem (VAsset createdAsset)] [])
  = Ok (createdIC, mkVM [BigIntegerItem 200000] []).
Proof.
  exact (proj1 (created_asset_reads_back (ext := sampleExternals) createIC sampleTx 0x60 []
                  200000 3 [Byte.x02; Byte.x03] (replicate 20 Byte.x00) (replicate 20 Byte.x01)
                  [] [] createdIC (mkVM [InteropItem (VAsset createdAsset)] [])
                  eq_refl eq_refl)).
Defined.

(** A renewal of the sample asset leaves the overlay alone. *)
Lemma assetRenew_frame_witness :
  ∃ ic' e,
    run (assetRenew (ext := sampleExternals)) (sampleIC assetLedger) (renewVM 3)
      = Ok (ic', mkVM [BigIntegerItem e] []) ∧
    mem ic' = emptyStore.
Proof.
  destruct (assetRenew_frame (ext := sampleExternals) (sampleIC assetLedger) sampleAsset 3
              sampleAsset [] [] eq_refl eq_refl eq_refl)
    as (ic' & e & asset' & Hrun & _ & _ & Hmem & _).
  exists ic', e. split; [exact Hrun | exact Hmem].
Defined.

(** One year and then two, and three years at once, on the sample asset. *)
Lemma assetRenew_additive_witness :
  ∃ ic1 e1 ic2 e2,
    run (assetRenew (ext := sampleExternals)) (sampleIC assetLedger) (renewVM 1)
      = Ok (ic1, mkVM [BigIntegerItem e1] []) ∧
    run (assetRenew (ext := sampleExternals)) ic1 (renewVM 2)
      = Ok (ic2, mkVM [BigIntegerItem e2] []) ∧
    run (assetRenew (ext := sampleExternals)) (sampleIC assetLedger) (renewVM (1 + 2))
      = Ok (ic2, mkVM [BigIntegerItem e2] []).
Proof.
  apply (assetRenew_additive (ext := sampleExternals) (sampleIC assetLedger) sampleAsset
           sampleAsset 1 2 [] []); try reflexivity; vm_compute; try discriminate;
    split; discriminate.
Defined.

(** The sample asset, just created at height 0, renewed for one year. *)
Lemma created_asset_renews_witness :
  ∃ ic'',
    run (assetRenew (ext := sampleExternals)) createdIC
      (mkVM [InteropItem (VAsset createdAsset); BigIntegerItem 1] [])
    = Ok (ic'', mkVM [BigIntegerItem 4000001] []).
Proof.
  apply (created_asset_renews (ext := sampleExternals) createIC 0x60 [] 200000 3
           [Byte.x02; Byte.x03] (replicate 20 Byte.x00) (replicate 20 Byte.x01) [] []
           createdIC (InteropItem (VAsset createdAsset)) 1 [] []);
    [reflexivity | vm_compute; discriminate | vm_compute; discriminate].
Defined.

Section ContextProperties.

Context {ext : Externals}.

(** X27 (two ways to a read-only context): on every context and stack,
    [storageGetContext] followed by [storageContextAsReadOnly] gives the
    outcome of [storageGetReadOnlyContext]: the read-only context of the
    executing script, or a panic where no script is executing. *)
Theorem storageGetContext_then_asReadOnly ic v :
  run (andThen storageGetContext storageContextAsReadOnly) ic v
  = run storageGetReadOnlyContext ic v.
Proof.
  unfold andThen, storageGetContext, storageGetReadOnlyContext, storageContextAsReadOnly,
    getContextScriptHash. unfold_M. simpl.
  destruct (istack v !! 0%nat); reflexivity.
Qed.

End ContextProperties.
